(** * factorio_quicklaunch: a shallow embedding of the launcher's logic

    The development follows [factorio_quicklaunch.py]: the pathlib
    fragment the script relies on, a tree model of the file system, the
    save finder [find_latest_save], the keyring adapter, the
    configuration store and the handlers of [MainWindow].

    Conventions.
    - A Python [str] is a [string]; [None] is [None] of an [option].
    - [st_mtime] is a finite float of which the code only uses the order
      ([m > latest_time], starting from [0]).  Finite binary64 values are
      a finite total order, so they embed into [Z] with [0.0] sent to [0]
      and the order preserved; a timestamp is therefore a [Z].
    - The file system has no symbolic links and no permission bits: every
      query of the script ([exists], [is_dir], [is_file], [stat]) follows
      links, so an entry stands for what it resolves to.
    - The GUI toolkit is reduced to the notices a handler shows and to the
      dialog results it reads.
    - The keyring backend is reachable and the configuration directory is
      writable: [keyring] calls fail only for a secret that is not there,
      and [mkdir] and [write_text] succeed.  Nothing below is a statement
      about those failures. *)

From Stdlib Require Import Ascii String ZArith.
From stdpp Require Import gmap strings list pretty.

Open Scope string_scope.
Open Scope list_scope.

Set Warnings "-register-all".

(** ** Strings *)

Module Str.

(** [str.lower]; file names and extensions are taken to be ASCII. *)
Definition lower_char (c : ascii) : ascii :=
  let n := nat_of_ascii c in
  if (65 <=? n)%nat && (n <=? 90)%nat then ascii_of_nat (n + 32) else c.

Fixpoint lower (s : string) : string :=
  match s with
  | "" => ""
  | String c s' => String (lower_char c) (lower s')
  end.

(** [s.split(sep)]: never empty, one more piece than separators. *)
Fixpoint split (sep : ascii) (s : string) : list string :=
  match s with
  | "" => [""]
  | String c s' =>
      if Ascii.eqb c sep then "" :: split sep s'
      else match split sep s' with
           | [] => [String c ""]
           | piece :: rest => String c piece :: rest
           end
  end.

(** [sep.join(l)] *)
Fixpoint join (sep : string) (l : list string) : string :=
  match l with
  | [] => ""
  | [x] => x
  | x :: rest => x +:+ sep +:+ join sep rest
  end.

(** [s.rfind(c)], with [None] for Python's [-1]. *)
Fixpoint rfind (c : ascii) (s : string) : option nat :=
  match s with
  | "" => None
  | String a s' =>
      match rfind c s' with
      | Some i => Some (S i)
      | None => if Ascii.eqb a c then Some 0%nat else None
      end
  end.

(** [s[i:]] *)
Fixpoint drop (i : nat) (s : string) : string :=
  match i, s with
  | O, _ => s
  | S i', String _ s' => drop i' s'
  | S _, "" => ""
  end.

(** Truthiness of a [str]: [if s:] *)
Definition truthy (s : string) : bool :=
  match s with "" => false | _ => true end.

End Str.

(** ** The pathlib fragment *)

(** A pure POSIX path as pathlib parses it: whether it has the root [/],
    and its components without empty ones and without [.]; [..] is kept.
    (A leading [//] is read as [/], as the kernel does.) *)
Record Path := MkPath { root : bool; parts : list string }.

Definition is_component (c : string) : Prop := c ≠ "" ∧ c ≠ ".".

#[global] Instance is_component_dec c : Decision (is_component c).
Proof. unfold is_component. apply _. Defined.

(** [Path(s)] *)
Definition Path_of_str (s : string) : Path :=
  {| root := String.prefix "/" s;
     parts := filter is_component (Str.split "/" s) |}.

(** [str(p)] *)
Definition str (p : Path) : string :=
  if root p then "/" +:+ Str.join "/" (parts p)
  else match parts p with
       | [] => "."
       | _ => Str.join "/" (parts p)
       end.

(** [p / name] *)
Definition joinpath (p : Path) (name : string) : Path :=
  let q := Path_of_str name in
  if root q then q
  else {| root := root p; parts := parts p ++ parts q |}.

(** [p.name]: the final component, empty when there is none. *)
Definition name_of (p : Path) : string := List.last (parts p) "".

(** [PurePath.suffix] of a final component: with [i = name.rfind('.')],
    [name[i:]] if [0 < i < len(name) - 1] and the empty string otherwise. *)
Definition suffix (name : string) : string :=
  match Str.rfind "." name with
  | Some i =>
      if (0 <? i)%nat && (i <? String.length name - 1)%nat
      then Str.drop i name
      else ""
  | None => ""
  end.

(** ** The file system *)

(** What a name resolves to.  A directory lists its entries in the order
    the operating system enumerates them. *)
Inductive node :=
  | File (st_mtime : Z)
  | Dir (entries : list (string * node))
  | Special.

Record filesystem := MkFs { fs_root : node; cwd : list string }.

Fixpoint lookup_entry (name : string) (es : list (string * node)) : option node :=
  match es with
  | [] => None
  | (n, x) :: rest => if String.eqb n name then Some x else lookup_entry name rest
  end.

(** Component-wise resolution; [up] holds the ancestors of [cur], nearest
    first.  The parent of the root is the root. *)
Fixpoint walk (up : list node) (cur : node) (comps : list string) : option node :=
  match comps with
  | [] => Some cur
  | c :: rest =>
      match cur with
      | Dir es =>
          if String.eqb c ".." then
            match up with
            | [] => walk [] cur rest
            | parent :: up' => walk up' parent rest
            end
          else
            match lookup_entry c es with
            | Some child => walk (cur :: up) child rest
            | None => None
            end
      | _ => None
      end
  end.

(** [os.stat(p)], [None] when it fails with ENOENT or ENOTDIR. *)
Definition stat (fs : filesystem) (p : Path) : option node :=
  walk [] (fs_root fs) (if root p then parts p else cwd fs ++ parts p).

Definition exists_ (fs : filesystem) (p : Path) : bool :=
  match stat fs p with Some _ => true | None => false end.

Definition is_dir (fs : filesystem) (p : Path) : bool :=
  match stat fs p with Some (Dir _) => true | _ => false end.

Definition is_file (x : node) : bool :=
  match x with File _ => true | _ => false end.

(** A name as a directory lists it: not empty, not [.] or [..], no [/]. *)
Definition entry_name (n : string) : Prop :=
  n ≠ "" ∧ n ≠ "." ∧ n ≠ ".." ∧ Str.split "/" n = [n].

(** [p.iterdir()]: the child paths [p / name] in enumeration order.  Each
    comes with the node its name stands for, which is what [f.is_file()]
    and [f.stat()] then look at (lemma [stat_child]). *)
Definition iterdir (p : Path) (es : list (string * node)) : list (Path * node) :=
  (λ e, (joinpath p e.1, e.2)) <$> es.

(** ** Save finder *)

Definition exts : list string :=
  [".zip"; ".save"; ".dat"; ".autosave"; ".quicksave"].

(** [f.suffix.lower() in exts] *)
Definition allowed (f : Path) : bool :=
  bool_decide (Str.lower (suffix (name_of f)) ∈ exts).

(** One iteration of the loop; the accumulator is [(latest, latest_time)]. *)
Definition scan_step (acc : option string * Z) (f : Path * node)
    : option string * Z :=
  if is_file f.2 && allowed f.1 then
    match f.2 with
    | File m => if (acc.2 <? m)%Z then (Some (str f.1), m) else acc
    | _ => acc
    end
  else acc.

Definition scan (l : list (Path * node)) : option string * Z :=
  foldl scan_step (None, 0%Z) l.

Definition find_latest_save (fs : filesystem) (saves_dir : option string)
    : option string :=
  match saves_dir with
  | None => None
  | Some d =>
      if negb (Str.truthy d) then None
      else
        let p := Path_of_str d in
        if negb (exists_ fs p) || negb (is_dir fs p) then None
        else match stat fs p with
             | Some (Dir es) => (scan (iterdir p es)).1
             | _ => None
             end
  end.

(** [f] is a regular file with an allow-listed extension, modified at [m]. *)
Definition candidate (f : Path * node) (m : Z) : Prop :=
  f.2 = File m ∧ allowed f.1 = true.

(** ** Credential store *)

Definition APP_NAME : string := "FactorioLauncher".
Definition SERVICE_PREFIX : string := APP_NAME +:+ ".server".

(** The keyring maps (service, username) to a secret. *)
Module keyring.

Definition set_password (service username password : string)
    (kr : gmap (string * string) string) : gmap (string * string) string :=
  <[(service, username) := password]> kr.

Definition get_password (service username : string)
    (kr : gmap (string * string) string) : option string :=
  kr !! (service, username).

(** [None] stands for [PasswordDeleteError]: nothing to delete. *)
Definition delete_password (service username : string)
    (kr : gmap (string * string) string) : option (gmap (string * string) string) :=
  match kr !! (service, username) with
  | Some _ => Some (delete (service, username) kr)
  | None => None
  end.

End keyring.

Definition service_of (name : string) : string := SERVICE_PREFIX +:+ ":" +:+ name.

Definition store_server_password (name password : string)
    (kr : gmap (string * string) string) : gmap (string * string) string :=
  keyring.set_password (service_of name) "password" password kr.

Definition get_server_password (name : string)
    (kr : gmap (string * string) string) : option string :=
  keyring.get_password (service_of name) "password" kr.

Definition delete_server_password (name : string)
    (kr : gmap (string * string) string) : gmap (string * string) string :=
  match keyring.delete_password (service_of name) "password" kr with
  | Some kr' => kr'
  | None => kr
  end.

(** ** Configuration document *)

Inductive json :=
  | JNull
  | JBool (b : bool)
  | JInt (z : Z)
  | JStr (s : string)
  | JArr (items : list json)
  | JObj (members : list (string * json)).

(** The [json] module of the standard library: [json_loads] answers
    [None] where [json.loads] raises, [json_dumps] is
    [json.dumps(_, indent=2)]. *)
Class json_module := {
  json_loads : string → option json;
  json_dumps : json → string;
}.

Record ServerEntry := {
  name : string;
  host : string;
  port : Z;
  user : string;
}.

(** [self.cfg], for a document of the expected shape. *)
Record Configuration := {
  factorio_path : string;
  saves_dir : string;
  servers : list ServerEntry;
}.

Definition entry_to_json (e : ServerEntry) : json :=
  JObj [("name", JStr (name e)); ("host", JStr (host e));
        ("port", JInt (port e)); ("user", JStr (user e))].

Definition cfg_to_json (c : Configuration) : json :=
  JObj [("factorio_path", JStr (factorio_path c));
        ("saves_dir", JStr (saves_dir c));
        ("servers", JArr (map entry_to_json (servers c)))].

Definition default_document : json :=
  JObj [("factorio_path", JStr ""); ("saves_dir", JStr ""); ("servers", JArr [])].

(** ** Handlers: state, exceptions, notices *)

Inductive exn :=
  | OSError (msg : string)
  | JSONDecodeError
  | FileNotFoundError
  | IndexError.

(** [str(e)]; only an [OSError] ever reaches a handler that prints it. *)
Definition exn_str (e : exn) : string :=
  match e with
  | OSError msg => msg
  | JSONDecodeError => "Expecting value"
  | FileNotFoundError => "No such file or directory"
  | IndexError => "list index out of range"
  end.

(** What the window shows. *)
Inductive notice :=
  | Warning (title text : string)
  | Critical (title text : string)
  | StatusMessage (text : string) (msec : Z).

(** [dlg.get_data()] of an accepted [ServerDialog]; name, host and user
    arrive stripped. *)
Record dialog_data := {
  d_name : string;
  d_host : string;
  d_port : Z;
  d_user : string;
  d_password : string;
}.

(** Everything a handler reads or writes.  [spawn_error argv] is the
    message of the [OSError] that [subprocess.Popen(argv)] raises, if it
    raises; [children] are the argument vectors of the processes created. *)
Record state := MkState {
  cfg : Configuration;
  fs : filesystem;
  config_file : option string;
  secrets : gmap (string * string) string;
  spawn_error : list string → option string;
  children : list (list string);
  notices : list notice;
}.

Definition set_cfg (c : Configuration) (s : state) : state :=
  MkState c (fs s) (config_file s) (secrets s) (spawn_error s) (children s) (notices s).
Definition set_config_file (f : option string) (s : state) : state :=
  MkState (cfg s) (fs s) f (secrets s) (spawn_error s) (children s) (notices s).
Definition set_secrets (kr : gmap (string * string) string) (s : state) : state :=
  MkState (cfg s) (fs s) (config_file s) kr (spawn_error s) (children s) (notices s).
Definition set_children (c : list (list string)) (s : state) : state :=
  MkState (cfg s) (fs s) (config_file s) (secrets s) (spawn_error s) c (notices s).
Definition set_notices (n : list notice) (s : state) : state :=
  MkState (cfg s) (fs s) (config_file s) (secrets s) (spawn_error s) (children s) n.

Definition set_servers (l : list ServerEntry) (c : Configuration) : Configuration :=
  {| factorio_path := factorio_path c; saves_dir := saves_dir c; servers := l |}.

(** A computation either returns or leaves through an exception; the
    state reached so far is kept in both cases. *)
Inductive outcome (A : Type) :=
  | Return (a : A) (s : state)
  | Raise (e : exn) (s : state).
Arguments Return {A} a s.
Arguments Raise {A} e s.

Definition M (A : Type) : Type := state → outcome A.

#[global] Instance M_ret : MRet M := λ A a s, Return a s.
#[global] Instance M_bind : MBind M := λ A B k m s,
  match m s with
  | Return a s' => k a s'
  | Raise e s' => Raise e s'
  end.

Definition get : M state := λ s, Return s s.
Definition modify (f : state → state) : M unit := λ s, Return tt (f s).
Definition raise {A} (e : exn) : M A := λ s, Raise e s.

(** [try: m  except Exception as e: h e] *)
Definition try_except {A} (m : M A) (h : exn → M A) : M A := λ s,
  match m s with
  | Return a s' => Return a s'
  | Raise e s' => h e s'
  end.

Definition final_state {A} (o : outcome A) : state :=
  match o with Return _ s => s | Raise _ s => s end.

(** [QMessageBox.warning], [QMessageBox.critical], [status.showMessage] *)
Definition notify (n : notice) : M unit :=
  modify (λ s, set_notices (notices s ++ [n]) s).
Definition warning (title text : string) : M unit := notify (Warning title text).
Definition critical (title text : string) : M unit := notify (Critical title text).
Definition showMessage (text : string) (msec : Z) : M unit :=
  notify (StatusMessage text msec).

(** [subprocess.Popen(args)] *)
Definition Popen (args : list string) : M unit := λ s,
  match spawn_error s args with
  | Some msg => Raise (OSError msg) s
  | None => Return tt (set_children (children s ++ [args]) s)
  end.

(** [l[row]] *)
Definition index {A} (l : list A) (row : nat) : M A :=
  match l !! row with
  | Some x => mret x
  | None => raise IndexError
  end.

Section handlers.
Context `{!json_module}.

(** *** Config store *)

Definition write_text (text : string) : M unit :=
  modify (set_config_file (Some text)).

Definition read_text : M string :=
  s ← get;
  match config_file s with
  | Some text => mret text
  | None => raise FileNotFoundError
  end.

Definition ensure_config_path : M unit :=
  s ← get;
  match config_file s with
  | None => write_text (json_dumps default_document)
  | Some _ => mret tt
  end.

Definition load_config : M json :=
  ensure_config_path;;
  try_except
    (text ← read_text;
     match json_loads text with
     | Some doc => mret doc
     | None => raise JSONDecodeError
     end)
    (λ _, mret default_document).

Definition save_config (c : Configuration) : M unit :=
  ensure_config_path;;
  write_text (json_dumps (cfg_to_json c)).

(** *** Server operations *)

Definition entry_of (d : dialog_data) : ServerEntry :=
  {| name := d_name d; host := d_host d; port := d_port d; user := d_user d |}.

(** [dlg] is [None] when the dialog is cancelled. *)
Definition add_server (dlg : option dialog_data) : M unit :=
  match dlg with
  | None => mret tt
  | Some d =>
      if negb (Str.truthy (d_name d)) then
        warning "Error" "Server must have a name."
      else
        modify (λ s, set_secrets
                       (store_server_password (d_name d) (d_password d) (secrets s)) s);;
        modify (λ s, set_cfg
                       (set_servers (servers (cfg s) ++ [entry_of d]) (cfg s)) s);;
        s ← get;
        save_config (cfg s)
  end.

(** [sel] is the first selected row, [None] without a selection. *)
Definition edit_server (sel : option nat) (dlg : option dialog_data) : M unit :=
  match sel with
  | None => warning "Edit" "Select a server to edit."
  | Some row =>
      s ← get;
      _ ← index (servers (cfg s)) row;
      match dlg with
      | None => mret tt
      | Some d =>
          (if Str.truthy (d_password d) then
             modify (λ s, set_secrets
                            (store_server_password (d_name d) (d_password d) (secrets s)) s)
           else mret tt);;
          modify (λ s, set_cfg
                         (set_servers (<[row := entry_of d]> (servers (cfg s))) (cfg s)) s);;
          s ← get;
          save_config (cfg s)
      end
  end.

Definition remove_server (sel : option nat) : M unit :=
  match sel with
  | None => mret tt
  | Some row =>
      s ← get;
      e ← index (servers (cfg s)) row;
      let name := name e in
      modify (λ s, set_cfg (set_servers (delete row (servers (cfg s))) (cfg s)) s);;
      s ← get;
      save_config (cfg s);;
      modify (λ s, set_secrets (delete_server_password name (secrets s)) s)
  end.

(** *** Game launch actions *)

Definition launch_normal : M unit :=
  s ← get;
  let factorio := factorio_path (cfg s) in
  if negb (exists_ (fs s) (Path_of_str factorio)) then
    warning "Error" "Factorio executable not found."
  else
    Popen [factorio];;
    showMessage "Launched Factorio." 3000.

(** [if not latest] *)
Definition falsy (latest : option string) : bool :=
  match latest with
  | None => true
  | Some l => negb (Str.truthy l)
  end.

Definition continue_latest_save : M unit :=
  s ← get;
  let factorio := factorio_path (cfg s) in
  let latest := find_latest_save (fs s) (Some (saves_dir (cfg s))) in
  if falsy latest then
    warning "Continue" "No save found."
  else
    Popen [factorio; "--load-game"; default "" latest];;
    showMessage "Launching latest save…" 3000.

(** The argument vector of [connect_to_server] for the selected entry. *)
Definition connect_args (factorio : string) (e : ServerEntry)
    (kr : gmap (string * string) string) : list string :=
  let host := host e in
  let port := pretty (port e) in
  let pw := default "" (get_server_password (name e) kr) in
  let args := [factorio; "--mp-connect"; host +:+ ":" +:+ port] in
  if Str.truthy pw then args ++ ["--password"; pw] else args.

Definition connect_to_server (sel : option nat) : M unit :=
  match sel with
  | None => warning "Connect" "Select a server first."
  | Some row =>
      s ← get;
      e ← index (servers (cfg s)) row;
      let factorio := factorio_path (cfg s) in
      if negb (exists_ (fs s) (Path_of_str factorio)) then
        warning "Error" "Factorio executable not found."
      else
        let args := connect_args factorio e (secrets s) in
        try_except
          (Popen args;;
           showMessage ("Connecting to " +:+ host e +:+ ":" +:+ pretty (port e) +:+ "…") 4000)
          (λ err, critical "Launch Failed" (exn_str err))
  end.

End handlers.

(** ** A concrete [json] module

    An instance for documents made of ASCII strings and integers, which
    is what the launcher itself writes.  It prints as
    [json.dumps(_, indent=2)] does and reads that syntax back; it knows no
    fractions, no exponents and no escapes beyond one byte, and answers [None]
    there.  It serves to run the handlers on concrete states. *)

Module AsciiJson.

Definition quote : ascii := "034"%char.
Definition backslash : ascii := "092"%char.
Definition newline : ascii := "010"%char.

Definition hex_digit (n : nat) : ascii :=
  if (n <? 10)%nat then ascii_of_nat (48 + n) else ascii_of_nat (87 + n).

Definition escape_char (c : ascii) : string :=
  let n := nat_of_ascii c in
  if Ascii.eqb c quote then String backslash (String quote "")
  else if Ascii.eqb c backslash then String backslash (String backslash "")
  else if (n =? 10)%nat then String backslash "n"
  else if (n =? 13)%nat then String backslash "r"
  else if (n =? 9)%nat then String backslash "t"
  else if (n =? 8)%nat then String backslash "b"
  else if (n =? 12)%nat then String backslash "f"
  else if (n <? 32)%nat || (126 <? n)%nat then
    String backslash
      ("u00" +:+ String (hex_digit (n / 16)) (String (hex_digit (n mod 16)) ""))
  else String c "".

Fixpoint escape (s : string) : string :=
  match s with
  | "" => ""
  | String c s' => escape_char c +:+ escape s'
  end.

Definition quoted (s : string) : string :=
  String quote (escape s +:+ String quote "").

Fixpoint spaces (n : nat) : string :=
  match n with O => "" | S n' => String " " (spaces n') end.

(** A line break followed by the indentation of [level]. *)
Definition break (level : nat) : string :=
  String newline (spaces (2 * level)).

Fixpoint dumps_at (level : nat) (j : json) : string :=
  match j with
  | JNull => "null"
  | JBool true => "true"
  | JBool false => "false"
  | JInt z => pretty z
  | JStr s => quoted s
  | JArr [] => "[]"
  | JArr items =>
      "[" +:+ break (S level)
      +:+ Str.join ("," +:+ break (S level)) (map (dumps_at (S level)) items)
      +:+ break level +:+ "]"
  | JObj [] => "{}"
  | JObj members =>
      "{" +:+ break (S level)
      +:+ Str.join ("," +:+ break (S level))
            (map (λ kv, let '(k, v) := kv in quoted k +:+ ": " +:+ dumps_at (S level) v)
                 members)
      +:+ break level +:+ "}"
  end.

Definition dumps (j : json) : string := dumps_at 0 j.

Definition is_ws (c : ascii) : bool :=
  let n := nat_of_ascii c in
  (n =? 32)%nat || (n =? 9)%nat || (n =? 10)%nat || (n =? 13)%nat.

Fixpoint skip_ws (s : string) : string :=
  match s with
  | String c s' => if is_ws c then skip_ws s' else s
  | "" => ""
  end.

Definition hex_value (c : ascii) : option nat :=
  let n := nat_of_ascii c in
  if (48 <=? n)%nat && (n <=? 57)%nat then Some (n - 48)
  else if (97 <=? n)%nat && (n <=? 102)%nat then Some (n - 87)
  else if (65 <=? n)%nat && (n <=? 70)%nat then Some (n - 55)
  else None.

Definition unescape (c : ascii) : option ascii :=
  if Ascii.eqb c quote then Some quote
  else if Ascii.eqb c backslash then Some backslash
  else if Ascii.eqb c "/" then Some "/"%char
  else if Ascii.eqb c "n" then Some newline
  else if Ascii.eqb c "r" then Some "013"%char
  else if Ascii.eqb c "t" then Some "009"%char
  else if Ascii.eqb c "b" then Some "008"%char
  else if Ascii.eqb c "f" then Some "012"%char
  else None.

(** The text after an opening quote: the decoded string and what follows
    the closing quote. *)
Fixpoint read_string (s : string) : option (string * string) :=
  match s with
  | "" => None
  | String c s' =>
      if Ascii.eqb c quote then Some ("", s')
      else if Ascii.eqb c backslash then
        match s' with
        | String "u" (String "0" (String "0" (String h (String l s'')))) =>
            match hex_value h, hex_value l, read_string s'' with
            | Some a, Some b, Some (body, rest) =>
                Some (String (ascii_of_nat (16 * a + b)) body, rest)
            | _, _, _ => None
            end
        | String e s'' =>
            match unescape e, read_string s'' with
            | Some ch, Some (body, rest) => Some (String ch body, rest)
            | _, _ => None
            end
        | "" => None
        end
      else if (nat_of_ascii c <? 32)%nat then None
      else
        match read_string s' with
        | Some (body, rest) => Some (String c body, rest)
        | None => None
        end
  end.

Definition is_digit (c : ascii) : bool :=
  let n := nat_of_ascii c in (48 <=? n)%nat && (n <=? 57)%nat.

Fixpoint read_digits (acc : Z) (s : string) : Z * string :=
  match s with
  | String c s' =>
      if is_digit c then read_digits (10 * acc + Z.of_nat (nat_of_ascii c - 48))%Z s'
      else (acc, s)
  | "" => (acc, "")
  end.

Definition starts_with (p : ascii → bool) (s : string) : bool :=
  match s with String c _ => p c | "" => false end.

Definition read_int (s : string) : option (Z * string) :=
  let '(neg, body) :=
    match s with
    | String "-" r => (true, r)
    | _ => (false, s)
    end in
  match body with
  | String c r =>
      if negb (is_digit c) then None
      else if Ascii.eqb c "0" && starts_with is_digit r then None
      else
        let '(n, rest) := read_digits 0 body in
        if starts_with (λ x, Ascii.eqb x "." || Ascii.eqb x "e" || Ascii.eqb x "E") rest
        then None
        else Some (if neg : bool then (- n)%Z else n, rest)
  | "" => None
  end.

Definition literal (word : string) (j : json) (s : string) : option (json * string) :=
  if String.prefix word s then Some (j, Str.drop (String.length word) s) else None.

Fixpoint read_value (fuel : nat) (s : string) : option (json * string) :=
  match fuel with
  | O => None
  | S fuel' =>
      match skip_ws s with
      | String "{" r =>
          match skip_ws r with
          | String "}" r' => Some (JObj [], r')
          | _ => read_members fuel' [] r
          end
      | String "[" r =>
          match skip_ws r with
          | String "]" r' => Some (JArr [], r')
          | _ => read_items fuel' [] r
          end
      | String "n" _ as t => literal "null" JNull t
      | String "t" _ as t => literal "true" (JBool true) t
      | String "f" _ as t => literal "false" (JBool false) t
      | String c r as t =>
          if Ascii.eqb c quote then
            match read_string r with
            | Some (body, rest) => Some (JStr body, rest)
            | None => None
            end
          else
            match read_int t with
            | Some (z, rest) => Some (JInt z, rest)
            | None => None
            end
      | "" => None
      end
  end
with read_items (fuel : nat) (acc : list json) (s : string) : option (json * string) :=
  match fuel with
  | O => None
  | S fuel' =>
      match read_value fuel' s with
      | Some (v, rest) =>
          match skip_ws rest with
          | String "," r => read_items fuel' (acc ++ [v]) r
          | String "]" r => Some (JArr (acc ++ [v]), r)
          | _ => None
          end
      | None => None
      end
  end
with read_members (fuel : nat) (acc : list (string * json)) (s : string)
    : option (json * string) :=
  match fuel with
  | O => None
  | S fuel' =>
      match skip_ws s with
      | String c r =>
          if Ascii.eqb c quote then
            match read_string r with
            | Some (key, rest) =>
                match skip_ws rest with
                | String ":" r1 =>
                    match read_value fuel' r1 with
                    | Some (v, rest1) =>
                        match skip_ws rest1 with
                        | String "," r2 => read_members fuel' (acc ++ [(key, v)]) r2
                        | String "}" r2 => Some (JObj (acc ++ [(key, v)]), r2)
                        | _ => None
                        end
                    | None => None
                    end
                | _ => None
                end
            | None => None
            end
          else None
      | "" => None
      end
  end.

Definition loads (s : string) : option json :=
  match read_value (2 * String.length s + 2) s with
  | Some (j, rest) => if String.eqb (skip_ws rest) "" then Some j else None
  | None => None
  end.

End AsciiJson.

#[local] Instance ascii_json : json_module :=
  {| json_loads := AsciiJson.loads; json_dumps := AsciiJson.dumps |}.

(** ** Sample states *)

(** A file system whose working directory [/home/u] holds [home]. *)
Definition fs_of (home : list (string * node)) : filesystem :=
  {| fs_root := Dir [("home", Dir [("u", Dir home)])]; cwd := ["home"; "u"] |}.

Definition saves_mixed : list (string * node) :=
  [("a.zip", File 10); ("b.save", File 30); ("c.txt", File 99)].

Definition saves_epoch : list (string * node) :=
  [("a.zip", File 0)].

Definition saves_old : list (string * node) :=
  [("A.ZIP", File 0); ("notes.txt", File 7); ("b.dat", File (-3))].

Definition saves_ties : list (string * node) :=
  [("sub", Dir [("deep.zip", File 500)]); ("one.zip", File 40);
   ("two.SAVE", File 40); ("pipe.zip", Special)].

Definition home_sample : list (string * node) :=
  [("factorio", File 100); ("saves", Dir saves_mixed)].

(** A window on [c] over [f], with an empty keyring, no configuration
    file yet, and an operating system that spawns whatever it is asked. *)
Definition state_of (c : Configuration) (f : filesystem) : state :=
  {| cfg := c; fs := f; config_file := None; secrets := ∅;
     spawn_error := λ _, None; children := []; notices := [] |}.

Definition cfg_sample : Configuration :=
  {| factorio_path := "/home/u/factorio"; saves_dir := "/home/u/saves";
     servers := [{| name := "X"; host := "play.example.org"; port := 34197; user := "me" |}] |}.

Definition state_sample : state := state_of cfg_sample (fs_of home_sample).

(** The same window when the saves directory is configured as a relative
    path. *)
Definition state_relative : state :=
  state_of {| factorio_path := "/home/u/factorio"; saves_dir := "saves"; servers := [] |}
           (fs_of home_sample).

(** The same window when the executable exists but may not be run. *)
Definition state_denied : state :=
  MkState cfg_sample (fs_of home_sample) None ∅
    (λ _, Some "[Errno 13] Permission denied: '/home/u/factorio'") [] [].

(** A window whose configuration file is damaged. *)
Definition state_corrupt : state :=
  set_config_file (Some "{not json") state_sample.

Definition dialog_sample : dialog_data :=
  {| d_name := "Nauvis"; d_host := "nauvis.example.org"; d_port := 34197;
     d_user := "me"; d_password := "p" |}.

(** The sample window once a secret is stored for its server. *)
Definition state_with_secret : state :=
  set_secrets (store_server_password "X" "hunter2" ∅) state_sample.

(** An accepted edit that renames the server and keeps the password field
    as the dialog filled it in, and one that keeps the name and changes
    the password. *)
Definition dialog_rename : dialog_data :=
  {| d_name := "Z"; d_host := "play.example.org"; d_port := 34197;
     d_user := "me"; d_password := "hunter2" |}.

Definition dialog_new_password : dialog_data :=
  {| d_name := "X"; d_host := "play.example.org"; d_port := 34197;
     d_user := "me"; d_password := "correct horse" |}.

(** ** Text fields and dialogs *)

(** [str.isspace] on ASCII: tab to carriage return, the four separators
    and the space. *)
Definition is_space (c : ascii) : bool :=
  let n := nat_of_ascii c in
  (9 <=? n)%nat && (n <=? 13)%nat || (28 <=? n)%nat && (n <=? 32)%nat.

Fixpoint lstrip (s : string) : string :=
  match s with
  | String c s' => if is_space c then lstrip s' else s
  | "" => ""
  end.

Fixpoint rstrip (s : string) : string :=
  match s with
  | "" => ""
  | String c s' =>
      match rstrip s' with
      | "" => if is_space c then "" else String c ""
      | t => String c t
      end
  end.

(** [s.strip()] *)
Definition strip (s : string) : string := rstrip (lstrip s).

(** Nothing but white space. *)
Fixpoint blank (s : string) : bool :=
  match s with
  | "" => true
  | String c s' => is_space c && blank s'
  end.

(** The widgets of a [ServerDialog]: the text of each line edit and the
    value of the spin box. *)
Record ServerDialog := {
  name_edit : string;
  host_edit : string;
  port_edit : Z;
  user_edit : string;
  password_edit : string;
}.

(** [QSpinBox.setValue] under [setRange(1, 65535)]: the value is brought
    into the range. *)
Definition setValue (v : Z) : Z := Z.max 1 (Z.min 65535 v).

(** [ServerDialog(parent, server)]: empty fields, or the fields of
    [server] and its stored password when there is a non-empty one.  A
    line edit is taken to hold the text it is given. *)
Definition ServerDialog_init (server : option ServerEntry)
    (kr : gmap (string * string) string) : ServerDialog :=
  match server with
  | None =>
      {| name_edit := ""; host_edit := ""; port_edit := 1; user_edit := "";
         password_edit := "" |}
  | Some e =>
      {| name_edit := name e; host_edit := host e; port_edit := setValue (port e);
         user_edit := user e;
         password_edit :=
           match get_server_password (name e) kr with
           | Some pw => if Str.truthy pw then pw else ""
           | None => ""
           end |}
  end.

Definition get_data (dlg : ServerDialog) : dialog_data :=
  {| d_name := strip (name_edit dlg);
     d_host := strip (host_edit dlg);
     d_port := port_edit dlg;
     d_user := strip (user_edit dlg);
     d_password := password_edit dlg |}.

(** The two line edits of a [SettingsDialog]. *)
Record SettingsDialog := {
  factorio_path_edit : string;
  saves_dir_edit : string;
}.

(** [dlg.get_settings()] merged into the configuration by [cfg.update]. *)
Definition update_settings (dlg : SettingsDialog) (c : Configuration) : Configuration :=
  {| factorio_path := strip (factorio_path_edit dlg);
     saves_dir := strip (saves_dir_edit dlg);
     servers := servers c |}.

(** An entry of the directory [p] that the save finder looks at: a
    regular file with an allow-listed extension. *)
Definition is_save (p : Path) (e : string * node) : bool :=
  is_file e.2 && allowed (joinpath p e.1).

(** ** Guessing the default paths *)

Fixpoint ends_with_slash (s : string) : bool :=
  match s with
  | "" => false
  | String c "" => Ascii.eqb c "/"
  | String _ s' => ends_with_slash s'
  end.

(** [os.path.join(a, b)] *)
Definition os_path_join (a b : string) : string :=
  if String.prefix "/" b then b
  else if negb (Str.truthy a) || ends_with_slash a then a +:+ b
  else a +:+ "/" +:+ b.

(** Like [walk], and also answers the ancestors of the node reached. *)
Fixpoint walk_to (up : list node) (cur : node) (comps : list string)
    : option (list node * node) :=
  match comps with
  | [] => Some (up, cur)
  | c :: rest =>
      match cur with
      | Dir es =>
          if String.eqb c ".." then
            match up with
            | [] => walk_to [] cur rest
            | parent :: up' => walk_to up' parent rest
            end
          else
            match lookup_entry c es with
            | Some child => walk_to (cur :: up) child rest
            | None => None
            end
      | _ => None
      end
  end.

(** Resolution of the raw components of a path string, as the kernel
    does it: an empty component or [.] stays where it is and needs a
    directory there. *)
Fixpoint os_walk (up : list node) (cur : node) (comps : list string) : option node :=
  match comps with
  | [] => Some cur
  | c :: rest =>
      match cur with
      | Dir es =>
          if String.eqb c "" || String.eqb c "." then os_walk up cur rest
          else if String.eqb c ".." then
            match up with
            | [] => os_walk [] cur rest
            | parent :: up' => os_walk up' parent rest
            end
          else
            match lookup_entry c es with
            | Some child => os_walk (cur :: up) child rest
            | None => None
            end
      | _ => None
      end
  end.

(** [os.stat(c)] for a path string; the empty string names nothing. *)
Definition os_stat (fs : filesystem) (c : string) : option node :=
  if negb (Str.truthy c) then None
  else if String.prefix "/" c then os_walk [] (fs_root fs) (Str.split "/" c)
  else match walk_to [] (fs_root fs) (cwd fs) with
       | Some (up, cur) => os_walk up cur (Str.split "/" c)
       | None => None
       end.

(** [os.path.isfile(c)], [os.path.isdir(c)] *)
Definition isfile (fs : filesystem) (c : string) : bool :=
  match os_stat fs c with Some (File _) => true | _ => false end.

Definition isdir (fs : filesystem) (c : string) : bool :=
  match os_stat fs c with Some (Dir _) => true | _ => false end.

(** The dict [guess_default_paths] returns. *)
Record guesses := {
  guess_factorio_path : string;
  guess_saves_dir : string;
}.

Definition candidates (h : string) : list string :=
  ["/usr/bin/factorio";
   "/usr/local/bin/factorio";
   os_path_join h ".local/share/Steam/steamapps/common/Factorio/bin/x64/factorio";
   os_path_join h ".factorio/bin/x64/factorio"].

Definition possible_saves (h : string) : list string :=
  [os_path_join h ".factorio/saves";
   os_path_join h ".local/share/Factorio/saves"].

(** [for x in l: if test(x): r = x; break   else: r = otherwise] *)
Definition first_or {A} (test : A → bool) (l : list A) (otherwise : A) : A :=
  match List.find test l with
  | Some x => x
  | None => otherwise
  end.

(** [h] is [str(Path.home())]; [x_ok c] is [os.access(c, os.X_OK)]. *)
Definition guess_default_paths (fs : filesystem) (x_ok : string → bool) (h : string)
    : guesses :=
  {| guess_factorio_path :=
       first_or (λ c, isfile fs c && x_ok c) (candidates h) "";
     guess_saves_dir :=
       first_or (isdir fs) (possible_saves h) (os_path_join h ".factorio/saves") |}.

(** ** The configuration as a dict *)

(** [d.get(key)] on the members of a dict. *)
Fixpoint dict_get (key : string) (members : list (string * json)) : option json :=
  match members with
  | [] => None
  | (k, v) :: rest => if String.eqb k key then Some v else dict_get key rest
  end.

(** [d[key] = v]: in place when the key is there, at the end otherwise. *)
Fixpoint dict_set (key : string) (v : json) (members : list (string * json))
    : list (string * json) :=
  match members with
  | [] => [(key, v)]
  | (k, w) :: rest =>
      if String.eqb k key then (k, v) :: rest else (k, w) :: dict_set key v rest
  end.

(** Truthiness of [d.get(key)]. *)
Definition json_truthy (v : option json) : bool :=
  match v with
  | None => false
  | Some JNull => false
  | Some (JBool b) => b
  | Some (JInt z) => negb (z =? 0)%Z
  | Some (JStr s) => Str.truthy s
  | Some (JArr items) => match items with [] => false | _ => true end
  | Some (JObj members) => match members with [] => false | _ => true end
  end.

(** How the configuration steps of [MainWindow.__init__] end: with the
    document held in [self.cfg], or with the [AttributeError] of
    [self.cfg.get] when the loaded document is no dict. *)
Inductive startup :=
  | Configured (doc : json)
  | NoDict.

(** [if not cfg.get(key): cfg[key] = guess] *)
Definition fill (key guess : string) (members : list (string * json))
    : list (string * json) :=
  if negb (json_truthy (dict_get key members)) then dict_set key (JStr guess) members
  else members.

Section startup.
Context `{!json_module}.

(** [save_config] on the dict itself. *)
Definition save_document (doc : json) : M unit :=
  ensure_config_path;;
  write_text (json_dumps doc).

(** The configuration steps of [MainWindow.__init__]. *)
Definition MainWindow_init (x_ok : string → bool) (h : string) : M startup :=
  doc ← load_config;
  s ← get;
  let guesses := guess_default_paths (fs s) x_ok h in
  match doc with
  | JObj members =>
      let members := fill "factorio_path" (guess_factorio_path guesses) members in
      let members := fill "saves_dir" (guess_saves_dir guesses) members in
      save_document (JObj members);;
      mret (Configured (JObj members))
  | _ => mret NoDict
  end.

(** [dlg] is [None] when the settings dialog is cancelled. *)
Definition open_settings (dlg : option SettingsDialog) : M unit :=
  match dlg with
  | None => mret tt
  | Some dlg =>
      modify (λ s, set_cfg (update_settings dlg (cfg s)) s);;
      s ← get;
      save_config (cfg s);;
      (* update_saves_label() redraws a label *)
      showMessage "Settings saved." 3000
  end.

End startup.

(** The configuration file holds what [save_config] writes for [self.cfg]. *)
Definition synced `{!json_module} (s : state) : Prop :=
  config_file s = Some (json_dumps (cfg_to_json (cfg s))).

(** A window whose secrets and servers are those of [state_with_secret]
    and whose configuration file is in step with [self.cfg]. *)
Definition state_synced : state :=
  set_config_file (Some (json_dumps (cfg_to_json cfg_sample))) state_with_secret.

Definition dialog_blank : ServerDialog :=
  {| name_edit := "   "; host_edit := "h"; port_edit := 1; user_edit := "";
     password_edit := "secret" |}.

(** A home directory with a runnable game below [.factorio] and saves
    below [.local/share/Factorio] only. *)
Definition home_installed : list (string * node) :=
  [(".factorio", Dir [("bin", Dir [("x64", Dir [("factorio", File 100)])])]);
   (".local", Dir [("share", Dir [("Factorio", Dir [("saves", Dir saves_mixed)])])])].

(** Two servers under one name. *)
Definition state_twins : state :=
  set_cfg
    (set_servers
       [{| name := "X"; host := "play.example.org"; port := 34197; user := "me" |};
        {| name := "X"; host := "other.example.org"; port := 34198; user := "" |}]
       cfg_sample)
    state_with_secret.

Definition settings_blank : SettingsDialog :=
  {| factorio_path_edit := " /home/u/factorio "; saves_dir_edit := "  " |}.

(** A window with nothing configured, in an existing working directory. *)
Definition state_unset : state :=
  state_of {| factorio_path := ""; saves_dir := ""; servers := [] |} (fs_of []).

(** A configuration object with a key of its own and no saves directory. *)
Definition document_custom : list (string * json) :=
  [("factorio_path", JStr "/opt/factorio"); ("saves_dir", JStr "");
   ("theme", JStr "dark")].

Definition state_custom : state :=
  set_config_file (Some (json_dumps (JObj document_custom))) state_sample.

(** A configuration file that holds a JSON array. *)
Definition state_array : state := set_config_file (Some "[]") state_sample.

(** The window right after a first start on a machine without the game:
    no executable was guessed, and the operating system finds nothing to
    run under the empty name. *)
Definition state_first_run : state :=
  MkState {| factorio_path := ""; saves_dir := "/home/u/.factorio/saves"; servers := [] |}
    (fs_of home_sample) None ∅
    (λ _, Some "[Errno 2] No such file or directory: ''") [] [].

(** The window when the executable path was set to a directory. *)
Definition state_directory_path : state :=
  MkState {| factorio_path := "/home/u/saves"; saves_dir := "/home/u/saves"; servers := [] |}
    (fs_of home_sample) None ∅
    (λ _, Some "[Errno 13] Permission denied: '/home/u/saves'") [] [].

Arguments Path_of_str : simpl never.

(** Unfolds the plumbing of [M]. *)
Ltac run :=
  unfold warning, critical, showMessage, notify, Popen, index, modify, get,
    raise, try_except, mbind, M_bind, mret, M_ret in *;
  cbn beta iota.


(** * Properties *)

(** ** Paths *)

Lemma join_nonempty sep x rest : x ≠ "" → Str.join sep (x :: rest) ≠ "".
Proof.
  intros Hx. destruct x as [|c x]; [done|].
  destruct rest; simpl; discriminate.
Qed.

Lemma parts_Path_of_str d c : c ∈ parts (Path_of_str d) → c ≠ "".
Proof.
  unfold Path_of_str; simpl. intros [[Hc _] _]%list_elem_of_filter. exact Hc.
Qed.

Lemma parts_joinpath p n c :
  (∀ x, x ∈ parts p → x ≠ "") → c ∈ parts (joinpath p n) → c ≠ "".
Proof.
  intros Hp. unfold joinpath. destruct (root (Path_of_str n)) eqn:E.
  - apply parts_Path_of_str.
  - simpl. intros [H|H]%elem_of_app; [by apply Hp | exact (parts_Path_of_str n c H)].
Qed.

(** [str] of a path is never the empty string when its components are not. *)
Lemma str_truthy p : (∀ x, x ∈ parts p → x ≠ "") → Str.truthy (str p) = true.
Proof.
  intros Hp. unfold str. destruct (root p); [reflexivity|].
  destruct (parts p) as [|x rest] eqn:E; [reflexivity|].
  pose proof (join_nonempty "/" x rest) as Hj.
  destruct (Str.join "/" (x :: rest)); [|reflexivity].
  exfalso. apply Hj; [|reflexivity]. apply Hp. left.
Qed.

Lemma prefix_slash x : String.prefix "/" ("/" +:+ x) = true.
Proof.
  change ("/" +:+ x) with (String "/" x). cbn [String.prefix].
  destruct (Ascii.ascii_dec "/" "/") as [_|Hne]; [by destruct x | by destruct Hne].
Qed.

(** A child of an absolute directory has an absolute path. *)
Lemma joinpath_absolute p n : root p = true → String.prefix "/" (str (joinpath p n)) = true.
Proof.
  intros Hp. unfold joinpath, str.
  destruct (root (Path_of_str n)) eqn:E; [rewrite E | cbn [root]; rewrite Hp];
    apply prefix_slash.
Qed.

(** ** The scan of [find_latest_save] *)

Lemma scan_snoc l f : scan (l ++ [f]) = scan_step (scan l) f.
Proof. unfold scan. apply foldl_snoc. Qed.

Lemma scan_step_cases acc f :
  (∃ m, candidate f m ∧ (acc.2 < m)%Z ∧ scan_step acc f = (Some (str f.1), m))
  ∨ ((∀ m, candidate f m → (m ≤ acc.2)%Z) ∧ scan_step acc f = acc).
Proof.
  unfold scan_step, candidate. destruct f as [p x]; simpl.
  destruct x as [m| |]; simpl; try (right; split; [intros ? [? ?]; discriminate | reflexivity]).
  destruct (allowed p) eqn:Ha; simpl.
  - destruct (Z.ltb_spec acc.2 m).
    + left. exists m. auto.
    + right. split; [|reflexivity]. intros m' [[= ->] _]. lia.
  - right. split; [|reflexivity]. intros m' [_ ?]. discriminate.
Qed.

(** The loop invariant: [latest_time] bounds every candidate seen, it is
    [0] as long as [latest] is unset, and otherwise [latest] is the first
    candidate that reaches it. *)
Lemma scan_invariant l :
  (∀ f m, f ∈ l → candidate f m → (m ≤ (scan l).2)%Z) ∧
  match (scan l).1 with
  | None => (scan l).2 = 0%Z
  | Some latest =>
      (0 < (scan l).2)%Z ∧
      ∃ i f, l !! i = Some f ∧ candidate f (scan l).2 ∧ latest = str f.1 ∧
             ∀ j g m, (j < i)%nat → l !! j = Some g → candidate g m → (m < (scan l).2)%Z
  end.
Proof.
  induction l as [|f l [IHle IH]] using rev_ind.
  { split; [intros ? ? []%elem_of_nil | reflexivity]. }
  rewrite scan_snoc.
  destruct (scan_step_cases (scan l) f) as [(m & Hc & Hlt & ->) | [Hle ->]]; simpl.
  - split.
    + intros g m' [Hg| ->%list_elem_of_singleton]%elem_of_app Hg'.
      * specialize (IHle _ _ Hg Hg'). lia.
      * destruct Hc as [Hc _], Hg' as [Hg' _]. rewrite Hc in Hg'.
        injection Hg' as ->. lia.
    + split.
      * destruct (scan l).1; [destruct IH|]; lia.
      * exists (length l), f. rewrite list_lookup_middle by reflexivity.
        repeat split; try apply Hc.
        intros j g m' Hj Hg Hg'. rewrite lookup_app_l in Hg by exact Hj.
        apply list_elem_of_lookup_2 in Hg. specialize (IHle _ _ Hg Hg'). lia.
  - split.
    + intros g m' [Hg| ->%list_elem_of_singleton]%elem_of_app Hg'; eauto.
    + destruct (scan l).1; [|exact IH].
      destruct IH as (Hpos & i & g & Hi & Hg & Hs & Hfirst).
      split; [exact Hpos|]. exists i, g.
      pose proof (lookup_lt_Some _ _ _ Hi) as Hlt.
      rewrite lookup_app_l by exact Hlt. repeat split; try apply Hg; try exact Hi; try exact Hs.
      intros j h m' Hj Hh. rewrite lookup_app_l in Hh by lia. eauto.
Qed.

(** ** Directory entries *)

Lemma Path_of_str_entry n :
  entry_name n → Path_of_str n = {| root := false; parts := [n] |}.
Proof.
  intros (Hne & Hdot & _ & Hsplit). unfold Path_of_str. rewrite Hsplit. f_equal.
  - destruct n as [|c n]; [done|].
    change (String.prefix "/" (String c n))
      with (if Ascii.ascii_dec "/" c then String.prefix "" n else false).
    destruct (Ascii.ascii_dec "/" c) as [<-|]; [|reflexivity].
    cbn in Hsplit. discriminate.
  - cbn. rewrite decide_True; [reflexivity | by split].
Qed.

Lemma joinpath_entry p n :
  entry_name n → joinpath p n = {| root := root p; parts := parts p ++ [n] |}.
Proof. intros Hn. unfold joinpath. rewrite (Path_of_str_entry _ Hn). reflexivity. Qed.

(** The child path of an entry ends in the entry's name. *)
Lemma name_of_joinpath p n : entry_name n → name_of (joinpath p n) = n.
Proof.
  intros Hn. rewrite (joinpath_entry _ _ Hn). unfold name_of. cbn. apply last_last.
Qed.

Lemma walk_snoc up cur comps es n :
  n ≠ ".." →
  walk up cur comps = Some (Dir es) →
  walk up cur (comps ++ [n]) = lookup_entry n es.
Proof.
  intros Hn. revert up cur. induction comps as [|c rest IH]; intros up cur Hw.
  - injection Hw as ->. cbn.
    rewrite (proj2 (String.eqb_neq n "..") Hn).
    by destruct (lookup_entry n es).
  - cbn in Hw |- *. destruct cur as [|es'|]; try discriminate.
    destruct (String.eqb c "..").
    + destruct up; by apply IH.
    + destruct (lookup_entry c es'); [by apply IH | discriminate].
Qed.

(** Resolving a child path gives the node listed under its name, so
    [iterdir] pairs every path with what [is_file] and [stat] see. *)
Lemma stat_child fs p es n :
  entry_name n →
  stat fs p = Some (Dir es) →
  stat fs (joinpath p n) = lookup_entry n es.
Proof.
  intros Hn Hs. rewrite (joinpath_entry _ _ Hn). unfold stat in *. cbn.
  destruct Hn as (_ & _ & Hn & _).
  destruct (root p); [by apply walk_snoc|].
  rewrite app_assoc. by apply walk_snoc.
Qed.

(** ** [find_latest_save] *)

Lemma truthy_ne s : s ≠ "" → Str.truthy s = true.
Proof. by destruct s. Qed.

Lemma truthy_false s : Str.truthy s = false → s = "".
Proof. by destruct s. Qed.

Lemma find_latest_save_unset fs : find_latest_save fs None = None.
Proof. reflexivity. Qed.

Lemma find_latest_save_empty fs : find_latest_save fs (Some "") = None.
Proof. reflexivity. Qed.

Lemma find_latest_save_no_dir fs d :
  (∀ es, stat fs (Path_of_str d) ≠ Some (Dir es)) →
  find_latest_save fs (Some d) = None.
Proof.
  intros Hd. unfold find_latest_save, exists_, is_dir.
  destruct (Str.truthy d); [|reflexivity]. simpl.
  destruct (stat fs (Path_of_str d)) as [[| es |]|] eqn:E; try reflexivity.
  by destruct (Hd es).
Qed.

Lemma find_latest_save_dir fs d es :
  Str.truthy d = true →
  stat fs (Path_of_str d) = Some (Dir es) →
  find_latest_save fs (Some d) = (scan (iterdir (Path_of_str d) es)).1.
Proof.
  intros Hd Hs. unfold find_latest_save, exists_, is_dir. rewrite Hd, Hs. reflexivity.
Qed.

Lemma iterdir_lookup p es i f :
  iterdir p es !! i = Some f ↔
  ∃ n x, es !! i = Some (n, x) ∧ f = (joinpath p n, x).
Proof.
  unfold iterdir. rewrite list_lookup_fmap. split.
  - destruct (es !! i) as [[n x]|]; [|discriminate].
    intros [= <-]. eauto.
  - intros (n & x & -> & ->). reflexivity.
Qed.

(** What is returned is a direct child that is a regular file with an
    allow-listed extension and a positive timestamp; no such child is
    newer, and none listed before it is as new. *)
Lemma find_latest_save_first_newest fs d es latest :
  stat fs (Path_of_str d) = Some (Dir es) →
  find_latest_save fs (Some d) = Some latest →
  ∃ i n m,
    es !! i = Some (n, File m) ∧ allowed (joinpath (Path_of_str d) n) = true ∧
    latest = str (joinpath (Path_of_str d) n) ∧ (0 < m)%Z ∧
    ∀ j n' m', es !! j = Some (n', File m') →
               allowed (joinpath (Path_of_str d) n') = true →
               (m' ≤ m)%Z ∧ ((j < i)%nat → (m' < m)%Z).
Proof.
  intros Hs Hr. destruct (Str.truthy d) eqn:Hd.
  2:{ unfold find_latest_save in Hr. rewrite Hd in Hr. discriminate. }
  rewrite (find_latest_save_dir _ _ _ Hd Hs) in Hr.
  destruct (scan_invariant (iterdir (Path_of_str d) es)) as [Hle Hinv].
  rewrite Hr in Hinv. destruct Hinv as (Hpos & i & f & Hi & [Hf Ha] & -> & Hfirst).
  apply iterdir_lookup in Hi as (n & x & Hi & ->). simpl in *. subst x.
  exists i, n, (scan (iterdir (Path_of_str d) es)).2. repeat split; try done.
  - apply (Hle (joinpath (Path_of_str d) n', File m')); [|by split].
    eapply list_elem_of_lookup_2, iterdir_lookup; eauto.
  - intros Hj. apply (Hfirst j (joinpath (Path_of_str d) n', File m') m' Hj); [|by split].
    apply iterdir_lookup; eauto.
Qed.

(** It is absent exactly when no such child has a positive timestamp. *)
Lemma find_latest_save_dir_None fs d es :
  Str.truthy d = true →
  stat fs (Path_of_str d) = Some (Dir es) →
  find_latest_save fs (Some d) = None ↔
  ∀ n m, (n, File m) ∈ es → allowed (joinpath (Path_of_str d) n) = true → (m ≤ 0)%Z.
Proof.
  intros Hd Hs. rewrite (find_latest_save_dir _ _ _ Hd Hs).
  destruct (scan_invariant (iterdir (Path_of_str d) es)) as [Hle Hinv]. split.
  - intros Hr n m Hn Ha. rewrite Hr in Hinv. rewrite <- Hinv.
    apply (Hle (joinpath (Path_of_str d) n, File m)); [|by split].
    unfold iterdir. apply list_elem_of_fmap. by exists (n, File m).
  - intros Hall. destruct (scan _).1 eqn:Hr; [|reflexivity].
    destruct Hinv as (Hpos & i & f & Hi & [Hf Ha] & _).
    apply iterdir_lookup in Hi as (n & x & Hi & ->). simpl in *. subst x.
    apply list_elem_of_lookup_2 in Hi. specialize (Hall _ _ Hi Ha). lia.
Qed.

(** It is found as soon as one such child has a positive timestamp. *)
Lemma find_latest_save_finds fs d es n m :
  Str.truthy d = true →
  stat fs (Path_of_str d) = Some (Dir es) →
  (n, File m) ∈ es → allowed (joinpath (Path_of_str d) n) = true → (0 < m)%Z →
  is_Some (find_latest_save fs (Some d)).
Proof.
  intros Hd Hs Hin Ha Hm.
  destruct (find_latest_save fs (Some d)) eqn:Hr; [eauto|].
  pose proof (proj1 (find_latest_save_dir_None _ _ _ Hd Hs) Hr _ _ Hin Ha). lia.
Qed.

(** All the ways of answering [None]. *)
Lemma find_latest_save_None_iff fs d :
  find_latest_save fs (Some d) = None ↔
  d = "" ∨ (∀ es, stat fs (Path_of_str d) ≠ Some (Dir es))
  ∨ ∃ es, stat fs (Path_of_str d) = Some (Dir es)
          ∧ ∀ n m, (n, File m) ∈ es → allowed (joinpath (Path_of_str d) n) = true → (m ≤ 0)%Z.
Proof.
  split.
  - intros Hr. destruct (Str.truthy d) eqn:Hd; [|left; by destruct d].
    destruct (stat fs (Path_of_str d)) as [[| es |]|] eqn:Hs;
      try (right; left; intros es'; discriminate).
    right; right. exists es. split; [reflexivity|].
    by apply (find_latest_save_dir_None _ _ _ Hd Hs).
  - intros [-> | [Hno | (es & Hs & Hall)]].
    + reflexivity.
    + by apply find_latest_save_no_dir.
    + destruct (Str.truthy d) eqn:Hd; [|by apply truthy_false in Hd as ->].
      by apply (find_latest_save_dir_None _ _ _ Hd Hs).
Qed.

(** The example of the specification, and first-wins on a tie; a file
    below a sub-directory and a name that is no regular file are ignored. *)
Example find_latest_save_mixed :
  find_latest_save (fs_of [("saves", Dir saves_mixed)]) (Some "/home/u/saves")
  = Some "/home/u/saves/b.save".
Proof. vm_compute. reflexivity. Qed.

Example find_latest_save_ties :
  find_latest_save (fs_of [("saves", Dir saves_ties)]) (Some "saves")
  = Some "saves/one.zip".
Proof. vm_compute. reflexivity. Qed.

(** C10: in a directory where every regular file with an allow-listed
    extension has a modification time of [0] or less, [find_latest_save]
    answers [None]. *)
Theorem find_latest_save_nonpositive fs d es :
  stat fs (Path_of_str d) = Some (Dir es) →
  (∀ n m, (n, File m) ∈ es → allowed (joinpath (Path_of_str d) n) = true → (m ≤ 0)%Z) →
  find_latest_save fs (Some d) = None.
Proof.
  intros Hs Hall. destruct (Str.truthy d) eqn:Hd.
  - by apply (find_latest_save_dir_None _ _ _ Hd Hs).
  - unfold find_latest_save. rewrite Hd. reflexivity.
Qed.

Lemma find_latest_save_nonpositive_witness :
  stat (fs_of [("saves", Dir saves_old)]) (Path_of_str "/home/u/saves") = Some (Dir saves_old)
  ∧ find_latest_save (fs_of [("saves", Dir saves_old)]) (Some "/home/u/saves") = None.
Proof.
  split; [reflexivity|].
  apply (find_latest_save_nonpositive _ _ saves_old).
  - reflexivity.
  - intros n m Hin Ha. unfold saves_old in Hin.
    repeat (apply elem_of_cons in Hin as [[= -> ->]|Hin];
            [first [lia | vm_compute in Ha; discriminate]|]).
    by apply elem_of_nil in Hin.
Defined.

(** C1: a directory whose only save was last modified at the epoch.  The
    file is a direct child, regular, with an allow-listed extension, and
    nothing in the directory is newer; [find_latest_save] answers [None]. *)
Theorem find_latest_save_skips_epoch_save :
  let fs := fs_of [("saves", Dir saves_epoch)] in
  let p := Path_of_str "/home/u/saves" in
  stat fs p = Some (Dir [("a.zip", File 0)])
  ∧ allowed (joinpath p "a.zip") = true
  ∧ find_latest_save fs (Some "/home/u/saves") = None.
Proof. vm_compute. repeat split. Qed.

(** C2: the directory argument is set, exists and is a directory holding
    regular files with allow-listed extensions, and [find_latest_save]
    still answers [None]. *)
Theorem find_latest_save_absent_despite_saves :
  let fs := fs_of [("saves", Dir saves_old)] in
  let p := Path_of_str "saves" in
  Str.truthy "saves" = true
  ∧ exists_ fs p = true
  ∧ is_dir fs p = true
  ∧ stat fs (joinpath p "A.ZIP") = Some (File 0)
  ∧ allowed (joinpath p "A.ZIP") = true
  ∧ find_latest_save fs (Some "saves") = None.
Proof. vm_compute. repeat split. Qed.

(** ** Launch actions *)

Lemma find_latest_save_Some fs d latest :
  find_latest_save fs (Some d) = Some latest →
  Str.truthy d = true ∧ ∃ es, stat fs (Path_of_str d) = Some (Dir es).
Proof.
  intros Hr. destruct (Str.truthy d) eqn:Hd.
  - split; [reflexivity|].
    destruct (stat fs (Path_of_str d)) as [[| es |]|] eqn:E; eauto;
      rewrite find_latest_save_no_dir in Hr; try discriminate;
      intros es; rewrite E; discriminate.
  - unfold find_latest_save in Hr. rewrite Hd in Hr. discriminate.
Qed.

Lemma find_latest_save_child fs d latest :
  find_latest_save fs (Some d) = Some latest →
  ∃ n, latest = str (joinpath (Path_of_str d) n).
Proof.
  intros Hr. destruct (find_latest_save_Some _ _ _ Hr) as [_ [es Hs]].
  destruct (find_latest_save_first_newest _ _ _ _ Hs Hr) as (_ & n & _ & _ & _ & -> & _).
  by exists n.
Qed.

(** A save that was found is never the empty string, so [if not latest]
    only fires on [None]. *)
Lemma find_latest_save_truthy fs d latest :
  find_latest_save fs (Some d) = Some latest → Str.truthy latest = true.
Proof.
  intros [n ->]%find_latest_save_child. apply str_truthy.
  intros x. apply parts_joinpath. apply parts_Path_of_str.
Qed.

Lemma find_latest_save_absolute fs d latest :
  String.prefix "/" d = true →
  find_latest_save fs (Some d) = Some latest → String.prefix "/" latest = true.
Proof.
  intros Hd [n ->]%find_latest_save_child. by apply joinpath_absolute.
Qed.

(** [launch_normal] by the outcome of [Path(factorio).exists()]: the
    not-found warning and no process when it is false; otherwise a spawn
    with the executable as the whole argument vector. *)
Lemma launch_normal_spec s :
  let factorio := factorio_path (cfg s) in
  if exists_ (fs s) (Path_of_str factorio) then
    match spawn_error s [factorio] with
    | None =>
        launch_normal s =
        Return tt (set_notices (notices s ++ [StatusMessage "Launched Factorio." 3000])
                     (set_children (children s ++ [[factorio]]) s))
    | Some msg => launch_normal s = Raise (OSError msg) s
    end
  else
    launch_normal s =
    Return tt (set_notices (notices s ++ [Warning "Error" "Factorio executable not found."]) s)
    ∧ children (final_state (launch_normal s)) = children s.
Proof.
  unfold launch_normal. run.
  destruct (exists_ (fs s) (Path_of_str (factorio_path (cfg s)))); simpl.
  - destruct (spawn_error s [factorio_path (cfg s)]); reflexivity.
  - split; reflexivity.
Qed.

(** C5: an executable path that names no file, and one that names a
    directory.  [Path.exists] accepts both, the empty string as the
    working directory, so [launch_normal] shows no not-found warning and
    calls [subprocess.Popen], whose error leaves the handler. *)
Theorem launch_normal_accepts_non_file :
  os_stat (fs state_first_run) (factorio_path (cfg state_first_run)) = None
  ∧ launch_normal state_first_run
    = Raise (OSError "[Errno 2] No such file or directory: ''") state_first_run
  ∧ isfile (fs state_directory_path) (factorio_path (cfg state_directory_path)) = false
  ∧ isdir (fs state_directory_path) (factorio_path (cfg state_directory_path)) = true
  ∧ launch_normal state_directory_path
    = Raise (OSError "[Errno 13] Permission denied: '/home/u/saves'") state_directory_path.
Proof. repeat split; reflexivity. Qed.

Example launch_normal_missing :
  launch_normal (state_of (set_servers [] cfg_sample) (fs_of []))
  = Return tt (set_notices [Warning "Error" "Factorio executable not found."]
                 (state_of (set_servers [] cfg_sample) (fs_of []))).
Proof. reflexivity. Qed.

(** C6, as the code has it: without a save [continue_latest_save] shows
    the no-save warning and creates no process; with one, the process it
    asks for has the arguments [--load-game] and the path the save finder
    returned, which is absolute when the configured directory is. *)
Theorem continue_latest_save_spec s :
  let factorio := factorio_path (cfg s) in
  match find_latest_save (fs s) (Some (saves_dir (cfg s))) with
  | None =>
      continue_latest_save s =
      Return tt (set_notices (notices s ++ [Warning "Continue" "No save found."]) s)
  | Some latest =>
      let args := [factorio; "--load-game"; latest] in
      continue_latest_save s =
      match spawn_error s args with
      | None =>
          Return tt (set_notices (notices s ++ [StatusMessage "Launching latest save…" 3000])
                       (set_children (children s ++ [args]) s))
      | Some msg => Raise (OSError msg) s
      end
      ∧ (String.prefix "/" (saves_dir (cfg s)) = true → String.prefix "/" latest = true)
  end.
Proof.
  unfold continue_latest_save. run.
  destruct (find_latest_save (fs s) (Some (saves_dir (cfg s)))) as [latest|] eqn:Hr.
  - unfold falsy. rewrite (find_latest_save_truthy _ _ _ Hr). simpl. split.
    + destruct (spawn_error s _); reflexivity.
    + intros Habs. by eapply find_latest_save_absolute.
  - reflexivity.
Qed.

Lemma continue_latest_save_spec_witness :
  continue_latest_save state_sample =
  Return tt (set_notices [StatusMessage "Launching latest save…" 3000]
               (set_children [["/home/u/factorio"; "--load-game"; "/home/u/saves/b.save"]]
                  state_sample))
  ∧ String.prefix "/" "/home/u/saves/b.save" = true.
Proof.
  pose proof (continue_latest_save_spec state_sample) as H.
  change (find_latest_save (fs state_sample) (Some (saves_dir (cfg state_sample))))
    with (Some "/home/u/saves/b.save") in H.
  destruct H as [H1 H2]. split; [exact H1 | apply H2; reflexivity].
Defined.

(** The claim of C6 fails for a relative saves directory. *)
Lemma continue_latest_save_relative :
  continue_latest_save state_relative =
  Return tt (set_notices [StatusMessage "Launching latest save…" 3000]
               (set_children [["/home/u/factorio"; "--load-game"; "saves/b.save"]]
                  state_relative))
  ∧ String.prefix "/" "saves/b.save" = false.
Proof. split; reflexivity. Qed.

(** C4: the executable exists but the operating system refuses to run
    it.  [connect_to_server] reports the failure in a dialog;
    [launch_normal] and [continue_latest_save] let the exception leave the
    handler and show nothing. *)
Theorem spawn_failure_escapes :
  let msg := "[Errno 13] Permission denied: '/home/u/factorio'" in
  connect_to_server (Some 0%nat) state_denied
  = Return tt (set_notices [Critical "Launch Failed" msg] state_denied)
  ∧ launch_normal state_denied = Raise (OSError msg) state_denied
  ∧ continue_latest_save state_denied = Raise (OSError msg) state_denied.
Proof. repeat split; reflexivity. Qed.

(** ** Connecting *)

Lemma connect_args_spec factorio e kr :
  connect_args factorio e kr =
  ([factorio; "--mp-connect"; host e +:+ ":" +:+ pretty (port e)] ++
   match get_server_password (name e) kr with
   | Some secret => if Str.truthy secret then ["--password"; secret] else []
   | None => []
   end)%list.
Proof.
  unfold connect_args. destruct (get_server_password (name e) kr) as [secret|]; simpl.
  - destruct (Str.truthy secret); reflexivity.
  - reflexivity.
Qed.

(** C3, as the code has it: for a selected entry and an existing
    executable, [connect_to_server] asks for the process
    [executable --mp-connect host:port], followed by [--password secret]
    exactly when the keyring holds a non-empty secret under the entry's
    name; a refused spawn ends in the launch-failed dialog. *)
Theorem connect_to_server_spec s row e :
  servers (cfg s) !! row = Some e →
  exists_ (fs s) (Path_of_str (factorio_path (cfg s))) = true →
  let args :=
    ([factorio_path (cfg s); "--mp-connect"; host e +:+ ":" +:+ pretty (port e)] ++
     match get_server_password (name e) (secrets s) with
     | Some secret => if Str.truthy secret then ["--password"; secret] else []
     | None => []
     end)%list in
  connect_to_server (Some row) s =
  match spawn_error s args with
  | None =>
      Return tt
        (set_notices
           (notices s ++ [StatusMessage ("Connecting to " +:+ host e +:+ ":"
                                          +:+ pretty (port e) +:+ "…") 4000])
           (set_children (children s ++ [args]) s))
  | Some msg => Return tt (set_notices (notices s ++ [Critical "Launch Failed" msg]) s)
  end.
Proof.
  intros Hrow Hex. unfold connect_to_server. run. rewrite Hrow. cbn beta iota.
  rewrite Hex. cbn [negb]. cbn beta iota. rewrite connect_args_spec.
  destruct (spawn_error s _); reflexivity.
Qed.

Lemma connect_to_server_spec_witness :
  connect_to_server (Some 0%nat) state_with_secret =
  Return tt
    (set_notices [StatusMessage "Connecting to play.example.org:34197…" 4000]
       (set_children [["/home/u/factorio"; "--mp-connect"; "play.example.org:34197";
                       "--password"; "hunter2"]] state_with_secret)).
Proof.
  apply (connect_to_server_spec state_with_secret 0%nat
           {| name := "X"; host := "play.example.org"; port := 34197; user := "me" |});
    reflexivity.
Defined.

(** The claim of C3 fails for a server added with a blank password: a
    secret is stored, and no [--password] pair is built. *)
Lemma connect_args_blank_secret :
  let d := {| d_name := "Y"; d_host := "h"; d_port := 1; d_user := ""; d_password := "" |} in
  let s := final_state (add_server (Some d) state_sample) in
  get_server_password "Y" (secrets s) = Some ""
  ∧ connect_args "/home/u/factorio" (entry_of d) (secrets s)
    = ["/home/u/factorio"; "--mp-connect"; "h:1"].
Proof. split; reflexivity. Qed.

(** ** Credentials *)

Lemma service_of_inj n n' : service_of n = service_of n' → n = n'.
Proof.
  unfold service_of. intros H.
  apply (inj (String.append SERVICE_PREFIX)) in H.
  by apply (inj (String.append ":")) in H.
Qed.

Lemma get_store_eq n p kr : get_server_password n (store_server_password n p kr) = Some p.
Proof. apply lookup_insert_eq. Qed.

Lemma get_store_ne n n' p kr :
  n ≠ n' → get_server_password n' (store_server_password n p kr) = get_server_password n' kr.
Proof.
  intros Hne. apply lookup_insert_ne. intros [= H]. exact (Hne H).
Qed.

Lemma get_delete_eq n kr : get_server_password n (delete_server_password n kr) = None.
Proof.
  unfold get_server_password, delete_server_password, keyring.delete_password,
    keyring.get_password.
  destruct (kr !! (service_of n, "password")) eqn:E; [apply lookup_delete_eq | exact E].
Qed.

Lemma get_delete_ne n n' kr :
  n ≠ n' → get_server_password n' (delete_server_password n kr) = get_server_password n' kr.
Proof.
  intros Hne.
  unfold get_server_password, delete_server_password, keyring.delete_password,
    keyring.get_password.
  destruct (kr !! (service_of n, "password")); [|reflexivity].
  apply lookup_delete_ne. intros [= H]. exact (Hne H).
Qed.

Section store.
Context `{!json_module}.

Lemma save_config_secrets c s :
  ∃ s', save_config c s = Return tt s' ∧ secrets s' = secrets s ∧ cfg s' = cfg s.
Proof.
  unfold save_config, ensure_config_path, write_text. run.
  destruct (config_file s); cbn beta iota; eexists; split; try reflexivity; split; reflexivity.
Qed.

(** *** Config store *)


Lemma load_config_parsable s text doc :
  config_file s = Some text →
  json_loads text = Some doc →
  load_config s = Return doc s.
Proof.
  intros Hf Hj. unfold load_config, ensure_config_path, read_text. run.
  rewrite Hf. cbn beta iota. rewrite Hf. cbn beta iota. rewrite Hj. reflexivity.
Qed.

(** On a first run the default document is written, then read back. *)
Lemma load_config_first_run s :
  config_file s = None →
  ∃ doc, load_config s = Return doc (set_config_file (Some (json_dumps default_document)) s)
         ∧ (doc = default_document ∨ json_loads (json_dumps default_document) = Some doc).
Proof.
  intros Hf. unfold load_config, ensure_config_path, read_text, write_text. run.
  rewrite Hf. cbn.
  destruct (json_loads (json_dumps default_document)) as [doc|] eqn:E;
    eexists; (split; [reflexivity|]); auto.
Qed.

(** *** Adding and removing *)

(** C8: adding a server named [X] with password [p] makes the lookup for
    [X] answer [p]; removing that entry afterwards makes it answer
    [None], an ordinary result. *)
Theorem add_lookup_remove_lookup s d :
  d_name d ≠ "" →
  ∃ s1 s2,
    add_server (Some d) s = Return tt s1
    ∧ servers (cfg s1) = servers (cfg s) ++ [entry_of d]
    ∧ get_server_password (d_name d) (secrets s1) = Some (d_password d)
    ∧ remove_server (Some (length (servers (cfg s)))) s1 = Return tt s2
    ∧ servers (cfg s2) = servers (cfg s)
    ∧ get_server_password (d_name d) (secrets s2) = None.
Proof.
  intros Hn. unfold add_server, remove_server. rewrite (truthy_ne _ Hn). run. cbn [negb].
  cbn beta iota.
  match goal with |- context [save_config ?c ?s0] =>
    destruct (save_config_secrets c s0) as (s1 & -> & Hk1 & Hc1) end.
  exists s1. cbn in Hk1, Hc1.
  assert (Hs1 : servers (cfg s1) = servers (cfg s) ++ [entry_of d]) by (by rewrite Hc1).
  rewrite Hs1, list_lookup_middle by reflexivity. cbn beta iota.
  match goal with |- context [save_config ?c ?s0] =>
    destruct (save_config_secrets c s0) as (s2 & -> & Hk2 & Hc2) end.
  cbn in Hk2, Hc2. eexists. repeat split.
  - rewrite Hk1. apply get_store_eq.
  - cbn. rewrite Hc2, Hs1. cbn. rewrite (delete_middle _ []). apply app_nil_r.
  - cbn. apply get_delete_eq.
Qed.

(** *** Editing *)

Lemma edit_server_final_secrets s row e dlg :
  servers (cfg s) !! row = Some e →
  secrets (final_state (edit_server (Some row) dlg s)) =
  match dlg with
  | Some d =>
      if Str.truthy (d_password d)
      then store_server_password (d_name d) (d_password d) (secrets s)
      else secrets s
  | None => secrets s
  end.
Proof.
  intros Hrow. unfold edit_server. run. rewrite Hrow. cbn beta iota.
  destruct dlg as [d|]; [|reflexivity].
  destruct (Str.truthy (d_password d)); cbn beta iota;
    match goal with |- context [save_config ?c ?s0] =>
      destruct (save_config_secrets c s0) as (s1 & -> & Hk1 & _) end;
    exact Hk1.
Qed.

(** C9, as the code has it: [edit_server] deletes no secret; it leaves
    the secret under every name untouched except, when a non-empty
    password was entered, the one under the entered name; so the secret of
    the edited entry survives under its previous name whenever the entry
    is renamed or the password field is left empty. *)
Theorem edit_server_secrets s row e dlg :
  servers (cfg s) !! row = Some e →
  let s' := final_state (edit_server (Some row) dlg s) in
  (∀ n, is_Some (get_server_password n (secrets s)) →
        is_Some (get_server_password n (secrets s')))
  ∧ (∀ n, (∀ d, dlg = Some d → d_name d ≠ n ∨ d_password d = "") →
          get_server_password n (secrets s') = get_server_password n (secrets s))
  ∧ (∀ d, dlg = Some d → d_password d ≠ "" →
          get_server_password (d_name d) (secrets s') = Some (d_password d))
  ∧ ((∀ d, dlg = Some d → d_name d ≠ name e ∨ d_password d = "") →
     get_server_password (name e) (secrets s') = get_server_password (name e) (secrets s)).
Proof.
  intros Hrow s'. subst s'. rewrite (edit_server_final_secrets _ _ _ _ Hrow).
  assert (Hframe : ∀ n, (∀ d, dlg = Some d → d_name d ≠ n ∨ d_password d = "") →
            get_server_password n
              match dlg with
              | Some d =>
                  if Str.truthy (d_password d)
                  then store_server_password (d_name d) (d_password d) (secrets s)
                  else secrets s
              | None => secrets s
              end = get_server_password n (secrets s)).
  { intros n Hn. destruct dlg as [d|]; [|reflexivity].
    destruct (Str.truthy (d_password d)) eqn:Hp; [|reflexivity].
    destruct (Hn d eq_refl) as [Hne|Hnil]; [by apply get_store_ne|].
    rewrite Hnil in Hp. discriminate. }
  repeat split.
  - intros n Hsome. destruct dlg as [d|]; [|exact Hsome].
    destruct (Str.truthy (d_password d)) eqn:Hp; [|exact Hsome].
    destruct (decide (d_name d = n)) as [<-|Hne].
    + rewrite get_store_eq. eauto.
    + by rewrite get_store_ne.
  - exact Hframe.
  - intros d -> Hp. rewrite (truthy_ne _ Hp). apply get_store_eq.
  - apply Hframe.
Qed.

End store.

(** ** The handlers on concrete states *)


Example load_config_creates_default :
  load_config state_sample
  = Return default_document
      (set_config_file (Some (json_dumps default_document)) state_sample).
Proof. vm_compute. reflexivity. Qed.

Lemma add_lookup_remove_lookup_witness :
  d_name dialog_sample ≠ ""
  ∧ ∃ s1 s2,
      add_server (Some dialog_sample) state_sample = Return tt s1
      ∧ servers (cfg s1) = servers (cfg state_sample) ++ [entry_of dialog_sample]
      ∧ get_server_password "Nauvis" (secrets s1) = Some "p"
      ∧ remove_server (Some 1%nat) s1 = Return tt s2
      ∧ servers (cfg s2) = servers (cfg state_sample)
      ∧ get_server_password "Nauvis" (secrets s2) = None.
Proof.
  split; [discriminate|].
  apply (add_lookup_remove_lookup state_sample dialog_sample). discriminate.
Defined.

Lemma edit_server_secrets_witness :
  servers (cfg state_with_secret) !! 0%nat
  = Some {| name := "X"; host := "play.example.org"; port := 34197; user := "me" |}
  ∧ get_server_password "X"
      (secrets (final_state (edit_server (Some 0%nat) (Some dialog_rename) state_with_secret)))
    = Some "hunter2".
Proof.
  split; [reflexivity|].
  destruct (edit_server_secrets state_with_secret 0%nat
              {| name := "X"; host := "play.example.org"; port := 34197; user := "me" |}
              (Some dialog_rename) eq_refl) as (_ & _ & _ & Hold).
  transitivity (get_server_password "X" (secrets state_with_secret)); [|reflexivity].
  apply Hold. intros d [= <-]. left. discriminate.
Defined.

(** The claim of C9 fails for an edit that keeps the name and enters a new
    password: the secret under the entry's name is replaced. *)
Lemma edit_server_overwrites_secret :
  servers (cfg state_with_secret) !! 0%nat
  = Some {| name := "X"; host := "play.example.org"; port := 34197; user := "me" |}
  ∧ get_server_password "X" (secrets state_with_secret) = Some "hunter2"
  ∧ get_server_password "X"
      (secrets (final_state
                  (edit_server (Some 0%nat) (Some dialog_new_password) state_with_secret)))
    = Some "correct horse".
Proof. repeat split; reflexivity. Qed.

(** * Further properties *)

(** ** Strings *)

Lemma lstrip_blank s : blank s = true → lstrip s = "".
Proof.
  induction s as [|c s IH]; [reflexivity|]. cbn.
  destruct (is_space c); [exact IH | discriminate].
Qed.

Lemma rstrip_blank s : blank s = true → rstrip s = "".
Proof.
  induction s as [|c s IH]; [reflexivity|]. cbn.
  destruct (is_space c); [|discriminate]. intros H. by rewrite (IH H).
Qed.

Lemma rstrip_empty s : rstrip s = "" → blank s = true.
Proof.
  induction s as [|c s IH]; [reflexivity|]. cbn.
  destruct (rstrip s); [|discriminate].
  destruct (is_space c); [intros _; by apply IH | discriminate].
Qed.

Lemma lstrip_suffix_blank s : blank (lstrip s) = true → blank s = true.
Proof.
  induction s as [|c s IH]; [reflexivity|]. cbn.
  destruct (is_space c) eqn:E; [exact IH|]. cbn. rewrite E. discriminate.
Qed.

Lemma strip_empty_iff s : strip s = "" ↔ blank s = true.
Proof.
  unfold strip. split.
  - intros H. by apply lstrip_suffix_blank, rstrip_empty.
  - intros H. by rewrite (lstrip_blank _ H).
Qed.

Lemma append_nonempty a b : b ≠ "" → a +:+ b ≠ "".
Proof. destruct a; [done | discriminate]. Qed.

Lemma lower_char_dot a : Ascii.eqb (Str.lower_char a) "." = Ascii.eqb a ".".
Proof. destruct a as [[] [] [] [] [] [] [] []]; reflexivity. Qed.

Lemma rfind_lower s : Str.rfind "." (Str.lower s) = Str.rfind "." s.
Proof.
  induction s as [|a s IH]; [reflexivity|]. cbn. rewrite IH, lower_char_dot. reflexivity.
Qed.

Lemma length_lower s : String.length (Str.lower s) = String.length s.
Proof. induction s as [|a s IH]; [reflexivity|]. cbn. by rewrite IH. Qed.

Lemma rfind_append stem rest :
  Str.rfind "." rest = None →
  Str.rfind "." (stem +:+ String "." rest) = Some (String.length stem).
Proof.
  intros Hr. induction stem as [|a stem IH].
  - change (Str.rfind "." (String "." rest) = Some 0%nat). cbn. rewrite Hr. reflexivity.
  - change (Str.rfind "." (String a (stem +:+ String "." rest))
            = Some (S (String.length stem))).
    cbn [Str.rfind]. rewrite IH. reflexivity.
Qed.

Lemma drop_append stem ext : Str.drop (String.length stem) (stem +:+ ext) = ext.
Proof.
  induction stem as [|a stem IH].
  - change (Str.drop 0 ext = ext). by destruct ext.
  - exact IH.
Qed.

Lemma length_append a b : String.length (a +:+ b) = (String.length a + String.length b)%nat.
Proof.
  induction a as [|c a IH]; [reflexivity|].
  change (S (String.length (a +:+ b)) = S (String.length a + String.length b)).
  by rewrite IH.
Qed.

Lemma take_drop i s : String.substring 0 i s +:+ Str.drop i s = s.
Proof.
  revert s. induction i as [|i IH]; intros [|c s]; try reflexivity.
  change (String c (String.substring 0 i s +:+ Str.drop i s) = String c s).
  by rewrite IH.
Qed.

Lemma rfind_lt c s i : Str.rfind c s = Some i → (i < String.length s)%nat.
Proof.
  revert i. induction s as [|a s IH]; intros i; cbn; [discriminate|].
  destruct (Str.rfind c s) as [j|].
  - intros [= <-]. specialize (IH j eq_refl). lia.
  - destruct (Ascii.eqb a c); [intros [= <-]; lia | discriminate].
Qed.

(** The extensions of the allow-list, in any letter case: a dot, then no
    further dot, and at least one character. *)
Lemma exts_shape ext :
  Str.lower ext ∈ exts →
  ∃ rest, ext = String "." rest ∧ Str.rfind "." rest = None ∧ rest ≠ "".
Proof.
  intros Hin. destruct ext as [|c rest].
  { cbn in Hin. unfold exts in Hin.
    repeat (apply elem_of_cons in Hin as [Hin|Hin]; [discriminate|]).
    by apply elem_of_nil in Hin. }
  exists rest. cbn in Hin. unfold exts in Hin.
  assert (Hc : Str.lower_char c = "."%char ∧ Str.rfind "." (Str.lower rest) = None
               ∧ Str.lower rest ≠ "").
  { repeat (apply elem_of_cons in Hin as [Hin|Hin];
            [injection Hin as -> ->; repeat split; discriminate|]).
    by apply elem_of_nil in Hin. }
  destruct Hc as (Hc & Hr & Hne). repeat split.
  - f_equal. apply Ascii.eqb_eq. rewrite <- lower_char_dot, Hc. reflexivity.
  - by rewrite <- rfind_lower.
  - intros ->. by apply Hne.
Qed.

(** X1: a listed name is taken for a save exactly when it is a non-empty
    stem followed by one of the five extensions in any letter case. *)
Theorem allowed_entry_iff p n :
  entry_name n →
  allowed (joinpath p n) = true ↔
  ∃ stem ext, n = stem +:+ ext ∧ stem ≠ "" ∧ Str.lower ext ∈ exts.
Proof.
  intros Hn. unfold allowed. rewrite (name_of_joinpath _ _ Hn), bool_decide_eq_true.
  unfold suffix. split.
  - destruct (Str.rfind "." n) as [i|] eqn:Hi.
    2:{ cbn. unfold exts. intros Hin.
        repeat (apply elem_of_cons in Hin as [Hin|Hin]; [discriminate|]).
        by apply elem_of_nil in Hin. }
    destruct ((0 <? i)%nat && (i <? String.length n - 1)%nat) eqn:Hb.
    2:{ cbn. unfold exts. intros Hin.
        repeat (apply elem_of_cons in Hin as [Hin|Hin]; [discriminate|]).
        by apply elem_of_nil in Hin. }
    intros Hin. exists (String.substring 0 i n), (Str.drop i n).
    split; [by rewrite take_drop|]. split; [|exact Hin].
    apply andb_true_iff in Hb as [Hpos%Nat.ltb_lt _].
    destruct i as [|i]; [lia|]. destruct n; [by destruct Hn | discriminate].
  - intros (stem & ext & -> & Hstem & Hext).
    destruct (exts_shape _ Hext) as (rest & -> & Hr & Hrest).
    rewrite (rfind_append _ _ Hr), length_append.
    assert (0 < String.length stem)%nat by (destruct stem; [done | cbn; lia]).
    assert (0 < String.length rest)%nat by (destruct rest; [done | cbn; lia]).
    replace ((0 <? String.length stem)%nat
             && (String.length stem <? String.length stem + String.length (String "." rest) - 1)%nat)
      with true.
    + by rewrite drop_append.
    + symmetry. apply andb_true_iff. split; apply Nat.ltb_lt; cbn; lia.
Qed.

Lemma allowed_entry_iff_witness :
  allowed (joinpath (Path_of_str "/home/u/saves") "world.ZIP") = true
  ∧ allowed (joinpath (Path_of_str "/home/u/saves") ".zip") = false.
Proof.
  split.
  - apply (allowed_entry_iff (Path_of_str "/home/u/saves") "world.ZIP").
    + repeat split; discriminate.
    + exists "world", ".ZIP". repeat split; [discriminate | vm_compute; left].
  - reflexivity.
Defined.

(** ** More on the save finder *)

(** X2: in a directory, the answer is [latest] exactly when [latest] is
    the path of the first entry, in enumeration order, among the regular
    files with an allow-listed extension whose timestamp is positive and
    greatest. *)
Theorem find_latest_save_iff fs d es latest :
  Str.truthy d = true →
  stat fs (Path_of_str d) = Some (Dir es) →
  find_latest_save fs (Some d) = Some latest ↔
  ∃ i n m,
    es !! i = Some (n, File m) ∧ allowed (joinpath (Path_of_str d) n) = true ∧
    latest = str (joinpath (Path_of_str d) n) ∧ (0 < m)%Z ∧
    ∀ j n' m', es !! j = Some (n', File m') →
               allowed (joinpath (Path_of_str d) n') = true →
               (m' ≤ m)%Z ∧ ((j < i)%nat → (m' < m)%Z).
Proof.
  intros Hd Hs. split; [by apply find_latest_save_first_newest|].
  intros (i & n & m & Hi & Ha & -> & Hm & Hbest).
  destruct (find_latest_save_finds fs d es n m Hd Hs) as [found Hfound]; auto.
  { by eapply list_elem_of_lookup_2. }
  rewrite Hfound. f_equal.
  destruct (find_latest_save_first_newest _ _ _ _ Hs Hfound)
    as (i' & n' & m' & Hi' & Ha' & -> & _ & Hbest').
  destruct (Hbest _ _ _ Hi' Ha') as [Hle Hlt].
  destruct (Hbest' _ _ _ Hi Ha) as [Hle' Hlt'].
  destruct (Nat.lt_trichotomy i i') as [H | [H | H]].
  - specialize (Hlt' H). lia.
  - subst i'. rewrite Hi in Hi'. by injection Hi' as -> _.
  - specialize (Hlt H). lia.
Qed.

Lemma find_latest_save_iff_witness :
  find_latest_save (fs_of [("saves", Dir saves_ties)]) (Some "saves") = Some "saves/one.zip".
Proof.
  apply (find_latest_save_iff (fs_of [("saves", Dir saves_ties)]) "saves" saves_ties);
    [reflexivity | reflexivity |].
  exists 1%nat, "one.zip", 40%Z. repeat split; try reflexivity.
  - destruct j as [|[|[|[|j]]]]; cbn in H; try discriminate.
    + injection H as <- <-. lia.
    + injection H as <- <-. lia.
  - intros Hj. destruct j as [|[|j]]; [discriminate | lia | lia].
Defined.

Lemma scan_step_skip acc f : is_file f.2 && allowed f.1 = false → scan_step acc f = acc.
Proof. unfold scan_step. by intros ->. Qed.

Lemma foldl_scan_filter acc l :
  foldl scan_step acc l
  = foldl scan_step acc (filter (λ f, is_file f.2 && allowed f.1) l).
Proof.
  revert acc. induction l as [|f l IH]; intros acc; [reflexivity|].
  rewrite filter_cons. destruct (decide _) as [Hk|Hk]; cbn.
  - apply IH.
  - rewrite scan_step_skip; [apply IH|]. by destruct (is_file f.2 && allowed f.1).
Qed.

Lemma iterdir_filter p es :
  filter (λ f, is_file f.2 && allowed f.1) (iterdir p es)
  = iterdir p (filter (λ e, is_save p e) es).
Proof.
  unfold iterdir. induction es as [|e es IH]; [reflexivity|].
  rewrite fmap_cons, !filter_cons. unfold is_save at 1. cbn.
  destruct (decide _); cbn; by rewrite IH.
Qed.

(** X3: the answer depends only on the saves of the directory, in their
    order: entries that are no regular file or have another extension can
    come and go without changing it. *)
Theorem find_latest_save_ignores_others fs fs' d es es' :
  stat fs (Path_of_str d) = Some (Dir es) →
  stat fs' (Path_of_str d) = Some (Dir es') →
  filter (λ e, is_save (Path_of_str d) e) es = filter (λ e, is_save (Path_of_str d) e) es' →
  find_latest_save fs (Some d) = find_latest_save fs' (Some d).
Proof.
  intros Hs Hs' Heq. destruct (Str.truthy d) eqn:Hd.
  2:{ unfold find_latest_save. rewrite Hd. reflexivity. }
  rewrite (find_latest_save_dir _ _ _ Hd Hs), (find_latest_save_dir _ _ _ Hd Hs').
  unfold scan. rewrite (foldl_scan_filter _ (iterdir _ es)),
    (foldl_scan_filter _ (iterdir _ es')), !iterdir_filter, Heq. reflexivity.
Qed.

Lemma find_latest_save_ignores_others_witness :
  find_latest_save (fs_of [("saves", Dir saves_mixed)]) (Some "saves")
  = find_latest_save (fs_of [("saves", Dir [("a.zip", File 10); ("b.save", File 30)])])
      (Some "saves").
Proof.
  apply (find_latest_save_ignores_others _ _ "saves" saves_mixed
           [("a.zip", File 10); ("b.save", File 30)]); reflexivity.
Defined.

(** ** More on the stores and the server list *)

Section more_store.
Context `{!json_module}.

Lemma save_config_run c s :
  save_config c s = Return tt (set_config_file (Some (json_dumps (cfg_to_json c))) s).
Proof.
  unfold save_config, ensure_config_path, write_text. run.
  destruct (config_file s); reflexivity.
Qed.

Lemma save_document_run doc s :
  save_document doc s = Return tt (set_config_file (Some (json_dumps doc)) s).
Proof.
  unfold save_document, ensure_config_path, write_text. run.
  destruct (config_file s); reflexivity.
Qed.

Lemma load_config_run s :
  load_config s =
  match config_file s with
  | Some text => Return (default default_document (json_loads text)) s
  | None =>
      Return (default default_document (json_loads (json_dumps default_document)))
        (set_config_file (Some (json_dumps default_document)) s)
  end.
Proof.
  unfold load_config, ensure_config_path, read_text, write_text. run.
  destruct (config_file s) as [text|] eqn:Hf; cbn.
  - rewrite Hf. cbn. by destruct (json_loads text).
  - by destruct (json_loads (json_dumps default_document)).
Qed.

(** X4: with the configuration file in place, [load_config] neither
    raises nor writes: it returns what [json.loads] makes of the text, or
    the default document where [json.loads] rejects it, and the state,
    file included, stays as it was. *)
Theorem load_config_present s text :
  config_file s = Some text →
  load_config s = Return (default default_document (json_loads text)) s.
Proof. intros Hf. rewrite load_config_run, Hf. reflexivity. Qed.

(** X5: what [save_config] wrote is what [load_config] reads next,
    whatever the file held before, as long as [json.loads] undoes
    [json.dumps] on that document. *)
Theorem save_then_load c s :
  json_loads (json_dumps (cfg_to_json c)) = Some (cfg_to_json c) →
  (save_config c;; load_config) s
  = Return (cfg_to_json c) (set_config_file (Some (json_dumps (cfg_to_json c))) s).
Proof.
  intros Hrt. unfold mbind at 1, M_bind. rewrite save_config_run, load_config_run.
  cbn. rewrite Hrt. reflexivity.
Qed.

Lemma add_server_run d s :
  d_name d ≠ "" →
  add_server (Some d) s =
  let c := set_servers (servers (cfg s) ++ [entry_of d]) (cfg s) in
  Return tt
    (set_config_file (Some (json_dumps (cfg_to_json c)))
       (set_cfg c
          (set_secrets (store_server_password (d_name d) (d_password d) (secrets s)) s))).
Proof.
  intros Hn. unfold add_server. rewrite (truthy_ne _ Hn). run. cbn [negb]. cbn beta iota.
  rewrite save_config_run. reflexivity.
Qed.

Lemma add_server_rejected d s :
  d_name d = "" →
  add_server (Some d) s
  = Return tt (set_notices (notices s ++ [Warning "Error" "Server must have a name."]) s).
Proof. intros Hn. unfold add_server. rewrite Hn. reflexivity. Qed.

Lemma edit_server_run row e d s :
  servers (cfg s) !! row = Some e →
  edit_server (Some row) (Some d) s =
  let kr := if Str.truthy (d_password d)
            then store_server_password (d_name d) (d_password d) (secrets s)
            else secrets s in
  let c := set_servers (<[row := entry_of d]> (servers (cfg s))) (cfg s) in
  Return tt (set_config_file (Some (json_dumps (cfg_to_json c))) (set_cfg c (set_secrets kr s))).
Proof.
  intros Hrow. unfold edit_server. run. rewrite Hrow. cbn beta iota.
  destruct (Str.truthy (d_password d)); cbn beta iota; rewrite save_config_run;
    [reflexivity|].
  destruct s; reflexivity.
Qed.

Lemma remove_server_run row e s :
  servers (cfg s) !! row = Some e →
  remove_server (Some row) s =
  let c := set_servers (delete row (servers (cfg s))) (cfg s) in
  Return tt
    (set_secrets (delete_server_password (name e) (secrets s))
       (set_config_file (Some (json_dumps (cfg_to_json c))) (set_cfg c s))).
Proof.
  intros Hrow. unfold remove_server. run. rewrite Hrow. cbn beta iota.
  rewrite save_config_run. reflexivity.
Qed.

Lemma index_out_of_range {A} (l : list A) row s :
  l !! row = None → index l row s = Raise IndexError s.
Proof. intros Hnone. unfold index. rewrite Hnone. reflexivity. Qed.

End more_store.

Lemma delete_insert_same {A} (l : list A) i x : delete i (<[i := x]> l) = delete i l.
Proof.
  revert i. induction l as [|a l IH]; intros [|i]; try reflexivity.
  cbn. f_equal. apply IH.
Qed.

Lemma elem_of_delete_other {A} (l : list A) i j x :
  i ≠ j → l !! j = Some x → x ∈ delete i l.
Proof.
  revert i j. induction l as [|a l IH]; intros [|i] [|j] Hne Hj; try done; cbn in *.
  - by eapply list_elem_of_lookup_2.
  - injection Hj as ->. left.
  - right. eapply IH; [|exact Hj]. lia.
Qed.

Lemma lookup_delete_length {A} (l : list A) i :
  is_Some (l !! i) → (length (delete i l) + 1 = length l)%nat.
Proof.
  intros Hi. rewrite length_delete by exact Hi.
  apply lookup_lt_is_Some in Hi. lia.
Qed.

Section more_servers.
Context `{!json_module}.

(** X6: removing a listed server drops exactly that row, deletes the
    secret stored under its name and no secret stored under another name,
    and leaves the configuration file in step with the list. *)
Theorem remove_server_spec s row e :
  servers (cfg s) !! row = Some e →
  ∃ s', remove_server (Some row) s = Return tt s'
        ∧ servers (cfg s') = delete row (servers (cfg s))
        ∧ (length (servers (cfg s')) + 1 = length (servers (cfg s)))%nat
        ∧ get_server_password (name e) (secrets s') = None
        ∧ (∀ n, n ≠ name e →
                get_server_password n (secrets s') = get_server_password n (secrets s))
        ∧ synced s'.
Proof.
  intros Hrow. rewrite (remove_server_run _ _ _ Hrow). cbn zeta. eexists.
  split; [reflexivity|]. cbn. repeat split.
  - apply lookup_delete_length. eauto.
  - apply get_delete_eq.
  - intros n Hn. apply get_delete_ne. congruence.
Qed.

(** X7: the keyring is addressed by name alone, so removing one of two
    servers that share a name takes the secret away from the one that
    stays. *)
Theorem remove_server_shared_name s row row' e e' :
  row ≠ row' →
  servers (cfg s) !! row = Some e →
  servers (cfg s) !! row' = Some e' →
  name e' = name e →
  e' ∈ servers (cfg (final_state (remove_server (Some row) s)))
  ∧ get_server_password (name e') (secrets (final_state (remove_server (Some row) s))) = None.
Proof.
  intros Hne Hrow Hrow' Hname. rewrite (remove_server_run _ _ _ Hrow). cbn. split.
  - by eapply elem_of_delete_other.
  - rewrite Hname. apply get_delete_eq.
Qed.

(** X8: editing a listed server replaces that row and no other, keeps the
    number of servers, shows nothing, and, unlike adding, goes through
    whatever the entered name is, the empty one included. *)
Theorem edit_server_row s row e d :
  servers (cfg s) !! row = Some e →
  ∃ s', edit_server (Some row) (Some d) s = Return tt s'
        ∧ length (servers (cfg s')) = length (servers (cfg s))
        ∧ servers (cfg s') !! row = Some (entry_of d)
        ∧ (∀ j, j ≠ row → servers (cfg s') !! j = servers (cfg s) !! j)
        ∧ notices s' = notices s
        ∧ synced s'.
Proof.
  intros Hrow. rewrite (edit_server_run _ _ _ _ Hrow). cbn zeta. eexists.
  split; [reflexivity|]. cbn. repeat split.
  - apply length_insert.
  - apply list_lookup_insert_eq. by eapply lookup_lt_Some.
  - intros j Hj. by apply list_lookup_insert_ne.
Qed.

(** X9: after a server is renamed and then removed, the secret it had
    under its old name is still in the keyring. *)
Theorem rename_then_remove_keeps_old_secret s row e d p :
  servers (cfg s) !! row = Some e →
  d_name d ≠ name e →
  get_server_password (name e) (secrets s) = Some p →
  ∃ s', (edit_server (Some row) (Some d);; remove_server (Some row)) s = Return tt s'
        ∧ servers (cfg s') = delete row (servers (cfg s))
        ∧ get_server_password (name e) (secrets s') = Some p.
Proof.
  intros Hrow Hne Hp. unfold mbind, M_bind. rewrite (edit_server_run _ _ _ _ Hrow).
  cbn beta iota zeta. erewrite remove_server_run.
  2:{ cbn. apply list_lookup_insert_eq. by eapply lookup_lt_Some. }
  cbn zeta. eexists. split; [reflexivity|]. cbn. split.
  - apply delete_insert_same.
  - etrans; [apply (get_delete_ne (d_name d) (name e)); exact Hne|].
    destruct (Str.truthy (d_password d)); [|exact Hp].
    etrans; [apply (get_store_ne (d_name d) (name e)); exact Hne | exact Hp].
Qed.

Lemma connect_to_server_run s row e :
  servers (cfg s) !! row = Some e →
  exists_ (fs s) (Path_of_str (factorio_path (cfg s))) = true →
  connect_to_server (Some row) s =
  match spawn_error s (connect_args (factorio_path (cfg s)) e (secrets s)) with
  | None =>
      Return tt
        (set_notices
           (notices s ++ [StatusMessage ("Connecting to " +:+ host e +:+ ":"
                                          +:+ pretty (port e) +:+ "…") 4000])
           (set_children
              (children s ++ [connect_args (factorio_path (cfg s)) e (secrets s)]) s))
  | Some msg => Return tt (set_notices (notices s ++ [Critical "Launch Failed" msg]) s)
  end.
Proof.
  intros Hrow Hex. unfold connect_to_server. run. rewrite Hrow. cbn beta iota.
  rewrite Hex. cbn [negb]. cbn beta iota.
  destruct (spawn_error s _); reflexivity.
Qed.

(** X10: a server added with a non-empty password can be connected to at
    once: the process asked for carries the entered host, port and
    password. *)
Theorem add_then_connect s d :
  d_name d ≠ "" →
  d_password d ≠ "" →
  exists_ (fs s) (Path_of_str (factorio_path (cfg s))) = true →
  spawn_error s [factorio_path (cfg s); "--mp-connect";
                 d_host d +:+ ":" +:+ pretty (d_port d);
                 "--password"; d_password d] = None →
  ∃ s', (add_server (Some d);; connect_to_server (Some (length (servers (cfg s))))) s
        = Return tt s'
        ∧ children s' = children s ++ [[factorio_path (cfg s); "--mp-connect";
                                        d_host d +:+ ":" +:+ pretty (d_port d);
                                        "--password"; d_password d]].
Proof.
  intros Hn Hp Hex Hspawn. unfold mbind, M_bind. rewrite (add_server_run _ _ Hn).
  cbn beta iota zeta. erewrite (connect_to_server_run _ _ (entry_of d)).
  2:{ cbn. by apply list_lookup_middle. }
  2:{ exact Hex. }
  cbn [spawn_error set_config_file set_cfg set_secrets secrets cfg factorio_path set_servers].
  assert (Hargs : connect_args (factorio_path (cfg s)) (entry_of d)
            (store_server_password (d_name d) (d_password d) (secrets s))
          = [factorio_path (cfg s); "--mp-connect";
             d_host d +:+ ":" +:+ pretty (d_port d); "--password"; d_password d]).
  { rewrite connect_args_spec. cbn [name entry_of host port].
    rewrite get_store_eq, (truthy_ne _ Hp). reflexivity. }
  rewrite Hargs, Hspawn. eexists. split; reflexivity.
Qed.

(** X12: a name of white space only is no name: nothing is stored and the
    warning is shown.  Any other name is added under its stripped form,
    with the password as typed. *)
Theorem add_server_from_dialog s dlg :
  if blank (name_edit dlg) then
    add_server (Some (get_data dlg)) s
    = Return tt (set_notices (notices s ++ [Warning "Error" "Server must have a name."]) s)
  else
    ∃ s', add_server (Some (get_data dlg)) s = Return tt s'
          ∧ name <$> servers (cfg s') = (name <$> servers (cfg s)) ++ [strip (name_edit dlg)]
          ∧ get_server_password (strip (name_edit dlg)) (secrets s') = Some (password_edit dlg)
          ∧ notices s' = notices s.
Proof.
  destruct (blank (name_edit dlg)) eqn:Hb.
  - apply add_server_rejected. cbn. by apply strip_empty_iff.
  - rewrite add_server_run.
    2:{ cbn. intros Hs%strip_empty_iff. congruence. }
    cbn zeta. eexists. split; [reflexivity|]. cbn. repeat split.
    + by rewrite fmap_app.
    + apply get_store_eq.
Qed.

(** X13: accepting the edit dialog as it opens changes neither the keyring
    nor the configuration, for an entry whose texts carry no outer white
    space and whose port is in the range of the spin box. *)
Theorem edit_unchanged_dialog s row e :
  servers (cfg s) !! row = Some e →
  strip (name e) = name e →
  strip (host e) = host e →
  strip (user e) = user e →
  (1 ≤ port e ≤ 65535)%Z →
  ∃ s', edit_server (Some row) (Some (get_data (ServerDialog_init (Some e) (secrets s)))) s
        = Return tt s'
        ∧ secrets s' = secrets s
        ∧ cfg s' = cfg s.
Proof.
  intros Hrow Hname Hhost Huser Hport.
  assert (Hd : get_data (ServerDialog_init (Some e) (secrets s)) =
               {| d_name := name e; d_host := host e; d_port := port e; d_user := user e;
                  d_password := match get_server_password (name e) (secrets s) with
                                | Some pw => if Str.truthy pw then pw else ""
                                | None => ""
                                end |}).
  { unfold get_data, ServerDialog_init.
    cbn [name_edit host_edit port_edit user_edit password_edit].
    rewrite Hname, Hhost, Huser. f_equal. unfold setValue. lia. }
  rewrite Hd, (edit_server_run _ _ _ _ Hrow). cbn zeta.
  eexists. split; [reflexivity|].
  cbn [secrets cfg set_config_file set_cfg set_secrets d_name d_password]. split.
  - destruct (get_server_password (name e) (secrets s)) as [pw|] eqn:Hpw; [|reflexivity].
    destruct (Str.truthy pw) eqn:Ht; rewrite ?Ht; [|reflexivity].
    apply insert_id. exact Hpw.
  - unfold entry_of. cbn [d_name d_host d_port d_user].
    replace {| name := name e; host := host e; port := port e; user := user e |}
      with e by (by destruct e).
    rewrite (list_insert_id _ _ _ Hrow). by destruct (cfg s).
Qed.

End more_servers.

(** ** Disk and memory *)

Section more_sync.
Context `{!json_module}.

Lemma synced_same s s' :
  cfg s' = cfg s → config_file s' = config_file s → synced s → synced s'.
Proof. unfold synced. by intros -> ->. Qed.

(** X14: once the configuration file holds what [save_config] writes for
    [self.cfg], every handler leaves it so, however it ends. *)
Theorem handlers_keep_synced s adlg sel edlg sdlg :
  synced s →
  synced (final_state (add_server adlg s))
  ∧ synced (final_state (edit_server sel edlg s))
  ∧ synced (final_state (remove_server sel s))
  ∧ synced (final_state (open_settings sdlg s))
  ∧ synced (final_state (launch_normal s))
  ∧ synced (final_state (continue_latest_save s))
  ∧ synced (final_state (connect_to_server sel s)).
Proof.
  intros Hs. repeat split.
  - destruct adlg as [d|]; [|exact Hs].
    destruct (decide (d_name d = "")) as [Hn|Hn].
    + rewrite (add_server_rejected _ _ Hn). exact Hs.
    + rewrite (add_server_run _ _ Hn). reflexivity.
  - destruct sel as [row|]; [|exact Hs].
    destruct (servers (cfg s) !! row) as [e|] eqn:Hrow.
    + destruct edlg as [d|].
      * rewrite (edit_server_run _ _ _ _ Hrow). reflexivity.
      * unfold edit_server. run. rewrite Hrow. exact Hs.
    + unfold edit_server. run. rewrite Hrow. exact Hs.
  - destruct sel as [row|]; [|exact Hs].
    destruct (servers (cfg s) !! row) as [e|] eqn:Hrow.
    + rewrite (remove_server_run _ _ _ Hrow). reflexivity.
    + unfold remove_server. run. rewrite Hrow. exact Hs.
  - destruct sdlg as [dlg|]; [|exact Hs].
    unfold open_settings. run. rewrite save_config_run. reflexivity.
  - unfold launch_normal. run.
    destruct (exists_ _ _); cbn; [destruct (spawn_error s _)|]; exact Hs.
  - unfold continue_latest_save. run.
    destruct (falsy _); cbn; [|destruct (spawn_error s _)]; exact Hs.
  - destruct sel as [row|]; [|exact Hs]. unfold connect_to_server. run.
    destruct (servers (cfg s) !! row) as [e|]; [|exact Hs]. cbn beta iota.
    destruct (exists_ _ _); cbn; [destruct (spawn_error s _)|]; exact Hs.
Qed.

(** X15: saving settings whose saves directory is blank and then asking to
    continue ends in the no-save warning; no process is created. *)
Theorem blank_saves_dir_then_continue s dlg :
  blank (saves_dir_edit dlg) = true →
  ∃ s', (open_settings (Some dlg);; continue_latest_save) s = Return tt s'
        ∧ notices s' = notices s ++ [StatusMessage "Settings saved." 3000;
                                     Warning "Continue" "No save found."]
        ∧ children s' = children s
        ∧ saves_dir (cfg s') = "".
Proof.
  intros Hb. pose proof (proj2 (strip_empty_iff _) Hb) as Hstrip.
  unfold mbind at 1, M_bind at 1. unfold open_settings. run. rewrite save_config_run.
  cbn beta iota. unfold continue_latest_save. run.
  cbn [cfg fs set_notices set_config_file set_cfg update_settings saves_dir factorio_path].
  rewrite Hstrip. cbn [find_latest_save Str.truthy negb falsy]. cbn beta iota.
  eexists. split; [reflexivity|]. cbn [notices children cfg set_notices saves_dir
    set_config_file set_cfg update_settings]. rewrite <- app_assoc. by rewrite Hstrip.
Qed.

(** Settings reach the configuration stripped of outer white space, and
    changing them touches neither the server list nor the keyring. *)
Lemma open_settings_spec s dlg :
  ∃ s', open_settings (Some dlg) s = Return tt s'
        ∧ factorio_path (cfg s') = strip (factorio_path_edit dlg)
        ∧ saves_dir (cfg s') = strip (saves_dir_edit dlg)
        ∧ servers (cfg s') = servers (cfg s)
        ∧ secrets s' = secrets s
        ∧ children s' = children s
        ∧ synced s'.
Proof.
  unfold open_settings. run. rewrite save_config_run. cbn beta iota.
  eexists. split; [reflexivity|]. repeat split.
Qed.

End more_sync.

(** ** The empty executable path *)

(** X16: [Path] reads the empty string as the working directory, so with
    an empty executable path [launch_normal] does not warn: it asks for a
    process with the empty string as its whole argument vector. *)
Theorem launch_normal_empty_path s :
  factorio_path (cfg s) = "" →
  is_Some (walk [] (fs_root (fs s)) (cwd (fs s))) →
  launch_normal s =
  match spawn_error s [""] with
  | None =>
      Return tt (set_notices (notices s ++ [StatusMessage "Launched Factorio." 3000])
                   (set_children (children s ++ [[""]]) s))
  | Some msg => Raise (OSError msg) s
  end.
Proof.
  intros Hp [x Hx]. unfold launch_normal. run. rewrite Hp.
  assert (Hex : exists_ (fs s) (Path_of_str "") = true).
  { unfold exists_, stat. change (parts (Path_of_str "")) with (@nil string).
    change (root (Path_of_str "")) with false. cbn beta iota.
    rewrite app_nil_r, Hx. reflexivity. }
  rewrite Hex. cbn [negb]. cbn beta iota. destruct (spawn_error s [""]); reflexivity.
Qed.

(** ** Guessed paths *)

Lemma walk_walk_to up cur comps : walk up cur comps = snd <$> walk_to up cur comps.
Proof.
  revert up cur. induction comps as [|c rest IH]; intros up cur; [reflexivity|].
  cbn. destruct cur as [|es|]; try reflexivity.
  destruct (String.eqb c "..").
  - destruct up; apply IH.
  - destruct (lookup_entry c es); [apply IH | reflexivity].
Qed.

Lemma walk_app up cur a b :
  walk up cur (a ++ b) =
  match walk_to up cur a with
  | Some (up', cur') => walk up' cur' b
  | None => None
  end.
Proof.
  revert up cur. induction a as [|c rest IH]; intros up cur; [reflexivity|].
  cbn. destruct cur as [|es|]; try reflexivity.
  destruct (String.eqb c "..").
  - destruct up; apply IH.
  - destruct (lookup_entry c es); [apply IH | reflexivity].
Qed.

(** Resolving the raw components and resolving the parsed path agree
    wherever the former succeeds. *)
Lemma os_walk_walk up cur comps x :
  os_walk up cur comps = Some x → walk up cur (filter is_component comps) = Some x.
Proof.
  revert up cur. induction comps as [|c rest IH]; intros up cur; [done|].
  cbn [os_walk]. rewrite filter_cons. destruct cur as [|es|]; try discriminate.
  destruct (String.eqb_spec c "") as [->|Hne]; cbn [orb].
  { rewrite decide_False by (intros [? _]; done). apply IH. }
  destruct (String.eqb_spec c ".") as [->|Hdot].
  { rewrite decide_False by (intros [_ ?]; done). apply IH. }
  rewrite decide_True by done. cbn [walk].
  destruct (String.eqb c "..").
  - destruct up; apply IH.
  - destruct (lookup_entry c es); [apply IH | discriminate].
Qed.

Lemma os_stat_stat fs c x : os_stat fs c = Some x → stat fs (Path_of_str c) = Some x.
Proof.
  unfold os_stat, stat. destruct (Str.truthy c); [|discriminate]. cbn [negb].
  change (root (Path_of_str c)) with (String.prefix "/" c).
  change (parts (Path_of_str c)) with (filter is_component (Str.split "/" c)).
  destruct (String.prefix "/" c).
  - apply os_walk_walk.
  - rewrite walk_app. destruct (walk_to [] (fs_root fs) (cwd fs)) as [[up cur]|]; [|done].
    apply os_walk_walk.
Qed.

Lemma isfile_exists fs c : isfile fs c = true → exists_ fs (Path_of_str c) = true.
Proof.
  unfold isfile, exists_. destruct (os_stat fs c) as [x|] eqn:E; [|discriminate].
  intros _. by rewrite (os_stat_stat _ _ _ E).
Qed.


Lemma find_first {A} (test : A → bool) l x :
  List.find test l = Some x →
  ∃ i, l !! i = Some x ∧ test x = true
       ∧ ∀ j y, (j < i)%nat → l !! j = Some y → test y = false.
Proof.
  induction l as [|a l IH]; [discriminate|]. cbn. destruct (test a) eqn:Ha.
  - intros [= ->]. exists 0%nat. repeat split; [exact Ha|]. intros j y Hj. lia.
  - intros (i & Hi & Hx & Hfirst)%IH. exists (S i). repeat split; [exact Hi | exact Hx|].
    intros [|j] y Hj; cbn; [by intros [= <-] | apply Hfirst; lia].
Qed.

Lemma find_none {A} (test : A → bool) l :
  List.find test l = None → ∀ x, x ∈ l → test x = false.
Proof.
  induction l as [|a l IH]; [intros _ x []%elem_of_nil|]. cbn.
  destruct (test a) eqn:Ha; [discriminate|].
  intros Hn x [->|Hx]%elem_of_cons; [exact Ha | by apply IH].
Qed.

Lemma os_path_join_nonempty a b : b ≠ "" → os_path_join a b ≠ "".
Proof.
  intros Hb. unfold os_path_join. destruct (String.prefix "/" b); [exact Hb|].
  destruct (negb (Str.truthy a) || ends_with_slash a).
  - by apply append_nonempty.
  - apply append_nonempty. discriminate.
Qed.

Lemma guess_saves_dir_nonempty fs x_ok h :
  guess_saves_dir (guess_default_paths fs x_ok h) ≠ "".
Proof.
  cbn [guess_saves_dir guess_default_paths]. unfold first_or, possible_saves.
  cbn [List.find]. repeat destruct (isdir fs _); by apply os_path_join_nonempty.
Qed.

(** X17: the guessed executable is the first candidate, in the order of
    the list, that is a regular file the user may execute, and then the
    existence test of the launch handlers accepts it; it is the empty
    string when no candidate qualifies. *)
Theorem guess_factorio_path_first fs x_ok h :
  let g := guess_factorio_path (guess_default_paths fs x_ok h) in
  (g = "" ∧ ∀ c, c ∈ candidates h → isfile fs c && x_ok c = false)
  ∨ (∃ i, candidates h !! i = Some g
          ∧ isfile fs g = true ∧ x_ok g = true
          ∧ exists_ fs (Path_of_str g) = true
          ∧ ∀ j c, (j < i)%nat → candidates h !! j = Some c → isfile fs c && x_ok c = false).
Proof.
  cbn [guess_factorio_path guess_default_paths]. unfold first_or.
  destruct (List.find _ (candidates h)) as [g|] eqn:E.
  - right. apply find_first in E as (i & Hi & [Hf Hx]%andb_true_iff & Hfirst).
    exists i. repeat split; auto. by apply isfile_exists.
  - left. split; [reflexivity|]. by apply find_none.
Qed.


Example guess_default_paths_installed :
  guess_default_paths (fs_of home_installed) (λ _, true) "/home/u"
  = {| guess_factorio_path := "/home/u/.factorio/bin/x64/factorio";
       guess_saves_dir := "/home/u/.local/share/Factorio/saves" |}.
Proof. vm_compute. reflexivity. Qed.

Example guess_default_paths_nothing :
  guess_default_paths (fs_of []) (λ _, true) "/home/u"
  = {| guess_factorio_path := ""; guess_saves_dir := "/home/u/.factorio/saves" |}.
Proof. vm_compute. reflexivity. Qed.

(** ** Start-up *)

Lemma dict_get_set_eq key v members : dict_get key (dict_set key v members) = Some v.
Proof.
  induction members as [|[k w] rest IH]; cbn.
  - by rewrite String.eqb_refl.
  - destruct (String.eqb k key) eqn:E; cbn; rewrite E; [reflexivity | exact IH].
Qed.

Lemma dict_get_set_ne key k v members :
  k ≠ key → dict_get key (dict_set k v members) = dict_get key members.
Proof.
  intros Hne. induction members as [|[k' w] rest IH]; cbn.
  - by rewrite (proj2 (String.eqb_neq k key) Hne).
  - destruct (String.eqb_spec k' k) as [->|Hk]; cbn.
    + by rewrite (proj2 (String.eqb_neq k key) Hne).
    + destruct (String.eqb k' key); [reflexivity | exact IH].
Qed.

Lemma dict_get_fill key k g members :
  dict_get key (fill k g members) =
  if decide (key = k ∧ json_truthy (dict_get k members) = false)
  then Some (JStr g) else dict_get key members.
Proof.
  unfold fill. destruct (json_truthy (dict_get k members)) eqn:Ht; cbn [negb].
  - by rewrite decide_False by (intros [_ ?]; done).
  - destruct (decide (key = k)) as [->|Hne].
    + rewrite decide_True by done. apply dict_get_set_eq.
    + rewrite decide_False by (intros [? _]; done). apply dict_get_set_ne. congruence.
Qed.

Section more_startup.
Context `{!json_module}.

Lemma MainWindow_init_run x_ok h s :
  MainWindow_init x_ok h s =
  match load_config s with
  | Return (JObj members) s1 =>
      let g := guess_default_paths (fs s1) x_ok h in
      let doc := JObj (fill "saves_dir" (guess_saves_dir g)
                         (fill "factorio_path" (guess_factorio_path g) members)) in
      Return (Configured doc) (set_config_file (Some (json_dumps doc)) s1)
  | Return _ s1 => Return NoDict s1
  | Raise e s1 => Raise e s1
  end.
Proof.
  unfold MainWindow_init. run. destruct (load_config s) as [doc s1|e s1]; [|reflexivity].
  destruct doc; try reflexivity. cbn zeta. rewrite save_document_run. reflexivity.
Qed.

(** X19: when the constructor gets past its configuration steps, the
    configuration file holds the document kept in [self.cfg], and in that
    document the saves directory is set. *)
Theorem MainWindow_init_persists x_ok h s :
  match MainWindow_init x_ok h s with
  | Return (Configured doc) s' =>
      config_file s' = Some (json_dumps doc)
      ∧ ∃ members, doc = JObj members
                   ∧ json_truthy (dict_get "saves_dir" members) = true
  | Return NoDict s' => config_file s' ≠ None
  | Raise _ _ => False
  end.
Proof.
  rewrite MainWindow_init_run, load_config_run.
  set (g := λ s1, guess_default_paths (fs s1) x_ok h).
  assert (Hfill : ∀ s1 members,
            json_truthy (dict_get "saves_dir"
              (fill "saves_dir" (guess_saves_dir (g s1))
                 (fill "factorio_path" (guess_factorio_path (g s1)) members))) = true).
  { intros s1 members. rewrite dict_get_fill.
    destruct (decide _) as [[_ Hf]|Hn].
    - cbn [json_truthy]. apply truthy_ne.
      apply guess_saves_dir_nonempty.
    - destruct (json_truthy _) eqn:Ht; [reflexivity|]. destruct Hn. by split. }
  destruct (config_file s) as [text|] eqn:Hf.
  - destruct (default default_document (json_loads text)) eqn:Hd;
      try (cbn; rewrite Hf; discriminate).
    cbn zeta. split; [reflexivity|]. eexists. split; [reflexivity|]. apply Hfill.
  - destruct (default default_document (json_loads (json_dumps default_document))) eqn:Hd;
      try (cbn; discriminate).
    cbn zeta. split; [reflexivity|]. eexists. split; [reflexivity|]. apply Hfill.
Qed.

(** X20: a configuration file that [json.loads] rejects is replaced at
    start-up by the default document with the guessed paths filled in. *)
Theorem MainWindow_init_corrupt x_ok h s text :
  config_file s = Some text →
  json_loads text = None →
  let g := guess_default_paths (fs s) x_ok h in
  let doc := JObj [("factorio_path", JStr (guess_factorio_path g));
                   ("saves_dir", JStr (guess_saves_dir g));
                   ("servers", JArr [])] in
  MainWindow_init x_ok h s
  = Return (Configured doc) (set_config_file (Some (json_dumps doc)) s).
Proof.
  intros Hf Hj. rewrite MainWindow_init_run, load_config_run, Hf, Hj. reflexivity.
Qed.

(** X21: start-up keeps every value of a configuration object it loaded,
    except that a missing or falsy executable path or saves directory is
    replaced by the guess. *)
Theorem MainWindow_init_keeps_values x_ok h s text members key v :
  config_file s = Some text →
  json_loads text = Some (JObj members) →
  dict_get key members = Some v →
  (key = "factorio_path" ∨ key = "saves_dir" → json_truthy (Some v) = true) →
  ∃ members',
    MainWindow_init x_ok h s
    = Return (Configured (JObj members'))
        (set_config_file (Some (json_dumps (JObj members'))) s)
    ∧ dict_get key members' = Some v.
Proof.
  intros Hf Hj Hk Hv. rewrite MainWindow_init_run, load_config_run, Hf, Hj.
  cbn [default]. cbn zeta. eexists. split; [reflexivity|].
  rewrite dict_get_fill. destruct (decide _) as [[-> Hfalse]|_].
  - rewrite dict_get_fill in Hfalse. destruct (decide _) as [[[=] _]|_].
    rewrite Hk, Hv in Hfalse; [discriminate | by right].
  - rewrite dict_get_fill. destruct (decide _) as [[-> Hfalse]|_]; [|exact Hk].
    rewrite Hk, Hv in Hfalse; [discriminate | by left].
Qed.

(** X22: a configuration file holding JSON that is no object stops the
    constructor at [self.cfg.get]; the file stays as it is. *)
Theorem MainWindow_init_no_dict x_ok h s text doc :
  config_file s = Some text →
  json_loads text = Some doc →
  (∀ members, doc ≠ JObj members) →
  MainWindow_init x_ok h s = Return NoDict s.
Proof.
  intros Hf Hj Hdoc. rewrite MainWindow_init_run, load_config_run, Hf, Hj. cbn [default].
  destruct doc; try reflexivity. by destruct (Hdoc members).
Qed.

End more_startup.

(** ** The further properties on concrete states *)

Lemma load_config_present_witness :
  load_config state_array = Return (JArr []) state_array
  ∧ load_config state_corrupt = Return default_document state_corrupt.
Proof.
  split.
  - rewrite (load_config_present state_array "[]" eq_refl). vm_compute. reflexivity.
  - rewrite (load_config_present state_corrupt "{not json" eq_refl). vm_compute. reflexivity.
Defined.

Lemma save_then_load_witness :
  (save_config cfg_sample;; load_config) state_corrupt
  = Return (cfg_to_json cfg_sample)
      (set_config_file (Some (json_dumps (cfg_to_json cfg_sample))) state_corrupt).
Proof. apply (save_then_load cfg_sample state_corrupt). vm_compute. reflexivity. Defined.

Lemma remove_server_spec_witness :
  ∃ s', remove_server (Some 0%nat) state_with_secret = Return tt s'
        ∧ servers (cfg s') = []
        ∧ get_server_password "X" (secrets s') = None.
Proof.
  destruct (remove_server_spec state_with_secret 0%nat
              {| name := "X"; host := "play.example.org"; port := 34197; user := "me" |}
              eq_refl) as (s' & Hrun & Hl & _ & Hget & _).
  exists s'. split; [exact Hrun|]. split; [exact Hl | exact Hget].
Defined.

Lemma remove_server_shared_name_witness :
  {| name := "X"; host := "other.example.org"; port := 34198; user := "" |}
    ∈ servers (cfg (final_state (remove_server (Some 0%nat) state_twins)))
  ∧ get_server_password "X"
      (secrets (final_state (remove_server (Some 0%nat) state_twins))) = None.
Proof.
  apply (remove_server_shared_name state_twins 0%nat 1%nat
           {| name := "X"; host := "play.example.org"; port := 34197; user := "me" |}
           {| name := "X"; host := "other.example.org"; port := 34198; user := "" |});
    [lia | reflexivity | reflexivity | reflexivity].
Defined.

Lemma edit_server_row_witness :
  ∃ s', edit_server (Some 0%nat) (Some dialog_rename) state_with_secret = Return tt s'
        ∧ servers (cfg s') !! 0%nat = Some (entry_of dialog_rename).
Proof.
  destruct (edit_server_row state_with_secret 0%nat
              {| name := "X"; host := "play.example.org"; port := 34197; user := "me" |}
              dialog_rename eq_refl) as (s' & Hrun & _ & Hrow & _).
  exists s'. split; [exact Hrun | exact Hrow].
Defined.

Lemma rename_then_remove_keeps_old_secret_witness :
  ∃ s', (edit_server (Some 0%nat) (Some dialog_rename);; remove_server (Some 0%nat))
          state_with_secret = Return tt s'
        ∧ servers (cfg s') = []
        ∧ get_server_password "X" (secrets s') = Some "hunter2".
Proof.
  apply (rename_then_remove_keeps_old_secret state_with_secret 0%nat
           {| name := "X"; host := "play.example.org"; port := 34197; user := "me" |}
           dialog_rename "hunter2"); [reflexivity | discriminate | reflexivity].
Defined.

Lemma add_then_connect_witness :
  ∃ s', (add_server (Some dialog_sample);; connect_to_server (Some 1%nat)) state_sample
        = Return tt s'
        ∧ children s' = [["/home/u/factorio"; "--mp-connect"; "nauvis.example.org:34197";
                          "--password"; "p"]].
Proof.
  apply (add_then_connect state_sample dialog_sample);
    [discriminate | discriminate | reflexivity | reflexivity].
Defined.

Lemma edit_unchanged_dialog_witness :
  ∃ s', edit_server (Some 0%nat)
          (Some (get_data
                   (ServerDialog_init
                      (Some {| name := "X"; host := "play.example.org"; port := 34197;
                               user := "me" |})
                      (secrets state_with_secret)))) state_with_secret
        = Return tt s'
        ∧ secrets s' = secrets state_with_secret
        ∧ cfg s' = cfg state_with_secret.
Proof.
  apply (edit_unchanged_dialog state_with_secret 0%nat
           {| name := "X"; host := "play.example.org"; port := 34197; user := "me" |});
    [reflexivity | reflexivity | reflexivity | reflexivity | cbn; lia].
Defined.

Lemma handlers_keep_synced_witness :
  synced state_synced
  ∧ synced (final_state (remove_server (Some 0%nat) state_synced))
  ∧ synced (final_state (open_settings (Some settings_blank) state_synced)).
Proof.
  assert (Hs : synced state_synced) by reflexivity.
  destruct (handlers_keep_synced state_synced None (Some 0%nat) None (Some settings_blank) Hs)
    as (_ & _ & Hr & Ho & _).
  split; [exact Hs|]. split; [exact Hr | exact Ho].
Defined.

Lemma blank_saves_dir_then_continue_witness :
  ∃ s', (open_settings (Some settings_blank);; continue_latest_save) state_sample
        = Return tt s'
        ∧ notices s' = [StatusMessage "Settings saved." 3000;
                        Warning "Continue" "No save found."]
        ∧ children s' = []
        ∧ saves_dir (cfg s') = "".
Proof. apply (blank_saves_dir_then_continue state_sample settings_blank). reflexivity. Defined.

Lemma launch_normal_empty_path_witness :
  launch_normal state_unset
  = Return tt (set_notices [StatusMessage "Launched Factorio." 3000]
                 (set_children [[""]] state_unset)).
Proof.
  apply (launch_normal_empty_path state_unset); [reflexivity|]. cbn. eauto.
Defined.

Lemma MainWindow_init_corrupt_witness :
  MainWindow_init (λ _, true) "/home/u" state_corrupt
  = Return
      (Configured (JObj [("factorio_path", JStr ""); ("saves_dir", JStr "/home/u/.factorio/saves");
                         ("servers", JArr [])]))
      (set_config_file
         (Some (json_dumps
                  (JObj [("factorio_path", JStr "");
                         ("saves_dir", JStr "/home/u/.factorio/saves");
                         ("servers", JArr [])])))
         state_corrupt).
Proof.
  apply (MainWindow_init_corrupt (λ _, true) "/home/u" state_corrupt "{not json");
    [reflexivity | vm_compute; reflexivity].
Defined.

Lemma MainWindow_init_keeps_values_witness :
  ∃ members',
    MainWindow_init (λ _, true) "/home/u" state_custom
    = Return (Configured (JObj members'))
        (set_config_file (Some (json_dumps (JObj members'))) state_custom)
    ∧ dict_get "theme" members' = Some (JStr "dark").
Proof.
  apply (MainWindow_init_keeps_values (λ _, true) "/home/u" state_custom
           (json_dumps (JObj document_custom)) document_custom);
    [reflexivity | vm_compute; reflexivity | reflexivity |].
  intros [H|H]; discriminate.
Defined.

Lemma MainWindow_init_no_dict_witness :
  MainWindow_init (λ _, true) "/home/u" state_array = Return NoDict state_array.
Proof.
  apply (MainWindow_init_no_dict (λ _, true) "/home/u" state_array "[]" (JArr []));
    [reflexivity | vm_compute; reflexivity | discriminate].
Defined.
